(** * gulp-compression-report: a shallow embedding of the statistics core

    The plugin keeps two module-level objects, [files] and [extensions],
    fills [files] while the stream delivers files ([gather]/[record]) and,
    when the stream ends, derives ratios and per-extension totals and prints
    them ([report]).  This development embeds those functions and states the
    properties of the specification about them.

    Conventions of the embedding.
    - Sizes are byte counts: natural numbers, here [N].
    - A JavaScript quotient of two byte counts is a value of [jsnum]: a
      finite number, [Infinity] or [NaN].  Finite quotients are kept as
      exact fractions in lowest terms, so that two quotients are equal here
      exactly when the exact rationals are; IEEE rounding, a function of the
      exact value, is not modelled.
    - A field that may be absent ([undefined]) is an [option].
    - [files] is an association list in own-key order (insertion order),
      because the report enumerates it; [extensions] is a finite map, its
      enumeration order never matters (keys are sorted before printing).
      Both are treated as plain maps from strings: inherited properties
      and the numeric ordering of array-index keys are outside the model.
    - Names are strings of bytes; [toLowerCase] lowers the ASCII letters.
    - Two calls of the lodash package are parameters.  [_.has(files, key)]
      is a function [has] of which the properties say what they need: it
      answers true for an own key, and it also reads a key with dots or
      brackets as a path into the entries, as lodash does from 3.7 on,
      the first release with the [_.get] that the code calls.  The instance
      [has_dotted] follows a path of two steps; [has_own] follows none.
      [_.sum(data.count)] depends on the release of lodash, [lodash]:
      release 3 sums the values of the object, release 4 answers zero for
      a value that is no array.
    - [_.has(extensions, extension)] is the test for an own key: an
      extension has no dot, and an extension with brackets is outside the
      model.
    - A thrown exception aborts the computation: [Throw].  What a run that
      throws has logged or changed before is not described, except for the
      stream, where [gather_all] gives the state left behind. *)

From Stdlib Require Import QArith Qreduction Ascii String Sorted.
From stdpp Require Import base option numbers list strings gmap fin_maps.

Local Open Scope N_scope.
Local Open Scope string_scope.

(** ** JavaScript numbers that arise as quotients of byte counts *)

Inductive jsnum : Type :=
| Fin (q : Q)
| Infinity
| NaN.

(** [a / b] on two non-negative integers. *)
Definition jsdiv (a b : N) : jsnum :=
  match b with
  | N0 => if N.eqb a 0 then NaN else Infinity
  | Npos p => Fin (Qred (Z.of_N a # p))
  end.

(** Truthiness of a byte count: [0] is falsy. *)
Definition truthy (n : N) : bool := negb (N.eqb n 0).

(** Truthiness of a quotient: [0] and [NaN] are falsy, [Infinity] is not. *)
Definition truthy_num (v : jsnum) : bool :=
  match v with
  | Fin q => negb (Z.eqb (Qnum q) 0)
  | Infinity => true
  | NaN => false
  end.

(** [a || b] on byte counts. *)
Definition js_or (a b : N) : N := if truthy a then a else b.

(** ** Exceptions *)

Inductive error : Type := TypeError.

Inductive outcome (A : Type) : Type :=
| Ok (a : A)
| Throw (e : error).
Arguments Ok {A} a.
Arguments Throw {A} e.

(** [outcome] is a monad; sequencing uses stdpp's [x ← m; k]. *)
#[global] Instance outcome_ret : MRet outcome := fun A a => Ok a.

#[global] Instance outcome_bind : MBind outcome := fun A B k m =>
  match m with
  | Ok a => k a
  | Throw e => Throw e
  end.

(** ** Strings *)

(** [strip_prefix p s] is what follows [p] in [s] when [s] starts with [p]. *)
Fixpoint strip_prefix (p s : string) : option string :=
  match p with
  | EmptyString => Some s
  | String a p' =>
      match s with
      | EmptyString => None
      | String b s' => if Ascii.eqb a b then strip_prefix p' s' else None
      end
  end.

(** [regex.test(s)] for a regular expression that is a literal [pat],
    without flags: does [pat] occur in [s]? *)
Fixpoint regex_test (pat s : string) : bool :=
  match strip_prefix pat s with
  | Some _ => true
  | None =>
      match s with
      | EmptyString => false
      | String _ s' => regex_test pat s'
      end
  end.

(** [s.replace(regex, '')] for the same kind of expression: without the
    [g] flag only the leftmost match is replaced. *)
Fixpoint regex_remove (pat s : string) : string :=
  match strip_prefix pat s with
  | Some rest => rest
  | None =>
      match s with
      | EmptyString => EmptyString
      | String c s' => String c (regex_remove pat s')
      end
  end.

(** [s.split('.')]: never empty. *)
Fixpoint split_dot (s : string) : list string :=
  match s with
  | EmptyString => [EmptyString]
  | String c s' =>
      if Ascii.eqb c "."%char then EmptyString :: split_dot s'
      else
        match split_dot s' with
        | h :: t => String c h :: t
        | [] => [String c EmptyString]
        end
  end.

Definition lower_ascii (c : ascii) : ascii :=
  let n := N_of_ascii c in
  if N.leb 65 n && N.leb n 90 then ascii_of_N (n + 32) else c.

(** [s.toLowerCase()] for a name written in ASCII: the letters [A] to [Z]
    are lowered and every other byte is kept.  Letters outside ASCII, which
    JavaScript lowers too, are outside the model. *)
Fixpoint toLowerCase (s : string) : string :=
  match s with
  | EmptyString => EmptyString
  | String c s' => String (lower_ascii c) (toLowerCase s')
  end.

(** ** Data model *)

(** The object [record] stores for one variant of a file. *)
Record Variant : Type := mkVariant {
  v_size : N;
  v_gzipSize : N
}.

(** An entry of [files]. *)
Record FileEntry : Type := mkFileEntry {
  fe_name : string;
  fe_unminified : option Variant;
  fe_minified : option Variant;
  fe_minificationSizeRatio : option jsnum;
  fe_compressionSizeRatio : option jsnum
}.

Record Count : Type := mkCount {
  c_minified : N;
  c_unminified : N;
  c_both : N
}.

Record Size : Type := mkSize {
  s_minified : N;
  s_unminified : N;
  s_src : N;
  s_dist : N;
  s_gzip : N
}.

Record MinificationRatio : Type := mkMinificationRatio {
  mr_count : jsnum;
  mr_size : jsnum
}.

(** An entry of [extensions]. *)
Record Extension : Type := mkExtension {
  e_count : Count;
  e_size : Size;
  e_minificationRatio : option MinificationRatio;
  e_compressionRatio : option jsnum
}.

Definition emptyExtension : Extension :=
  {| e_count := {| c_minified := 0; c_unminified := 0; c_both := 0 |};
     e_size := {| s_minified := 0; s_unminified := 0; s_src := 0;
                  s_dist := 0; s_gzip := 0 |};
     e_minificationRatio := None;
     e_compressionRatio := None |}.

(** The two module-level objects. *)
Record State : Type := mkState {
  files : list (string * FileEntry);
  extensions : gmap string Extension
}.

Definition initialExtensions : gmap string Extension :=
  {[ "*" := emptyExtension ]}.

Definition initialState : State :=
  {| files := []; extensions := initialExtensions |}.

(** [options]; the expression [minifiedName] is kept as the literal it
    matches, which covers the default [/\.min/]. *)
Record Options : Type := mkOptions {
  minifiedName : string;
  verbose : bool
}.

Definition defaultOptions : Options :=
  {| minifiedName := ".min"; verbose := false |}.

(** ** The [files] object *)

(** [files[name]], on the own keys. *)
Fixpoint files_get (name : string) (fs : list (string * FileEntry))
  : option FileEntry :=
  match fs with
  | [] => None
  | (k, e) :: rest => if String.eqb k name then Some e else files_get name rest
  end.

(** [files[name] = e]: an existing key keeps its place, a new one goes
    last.  This is the order of enumeration for keys that are no array
    index; a name such as [123], which JavaScript enumerates before the
    others, is outside the model. *)
Fixpoint files_set (name : string) (e : FileEntry)
  (fs : list (string * FileEntry)) : list (string * FileEntry) :=
  match fs with
  | [] => [(name, e)]
  | (k, e0) :: rest =>
      if String.eqb k name then (k, e) :: rest
      else (k, e0) :: files_set name e rest
  end.

(** ** Ingest *)

Definition normalizeFilename (options : Options) (filename : string) : string :=
  regex_remove (minifiedName options) filename.

Definition isMinified (options : Options) (filename : string) : bool :=
  regex_test (minifiedName options) filename.

Inductive minKey : Type := Kminified | Kunminified.

(** [entry[minKey] = data] *)
Definition set_variant (minKey : minKey) (data : Variant) (entry : FileEntry)
  : FileEntry :=
  match minKey with
  | Kminified =>
      {| fe_name := fe_name entry;
         fe_unminified := fe_unminified entry;
         fe_minified := Some data;
         fe_minificationSizeRatio := fe_minificationSizeRatio entry;
         fe_compressionSizeRatio := fe_compressionSizeRatio entry |}
  | Kunminified =>
      {| fe_name := fe_name entry;
         fe_unminified := Some data;
         fe_minified := fe_minified entry;
         fe_minificationSizeRatio := fe_minificationSizeRatio entry;
         fe_compressionSizeRatio := fe_compressionSizeRatio entry |}
  end.

(** [entry[minKey]] *)
Definition get_variant (minKey : minKey) (entry : FileEntry) : option Variant :=
  match minKey with
  | Kminified => fe_minified entry
  | Kunminified => fe_unminified entry
  end.

(** [{name: normalized}], the entry [record] creates before it stores a
    variant. *)
Definition new_entry (normalized : string) : FileEntry :=
  {| fe_name := normalized; fe_unminified := None; fe_minified := None;
     fe_minificationSizeRatio := None; fe_compressionSizeRatio := None |}.

(** What [files] is after a call of [record] that found the entry of the
    normalized name, or found none and made one. *)
Definition record_result (options : Options) (name : string) (data : Variant)
  (fs : list (string * FileEntry)) : list (string * FileEntry) :=
  let normalized := normalizeFilename options name in
  let min := isMinified options name in
  let minKey := if min then Kminified else Kunminified in
  let entry :=
    match files_get normalized fs with
    | Some e => e
    | None => new_entry normalized
    end in
  files_set normalized (set_variant minKey data entry) fs.

(** A file of the stream: its relative path and its contents, [None] when
    [file.isNull()]. *)
Record Vinyl : Type := mkVinyl {
  relative : string;
  contents : option (list Byte.byte)
}.

Section Ingest.
(** [_.has(files, key)] of the lodash package. *)
Variable has : list (string * FileEntry) -> string -> bool.
(** [gzipSize.sync] of the gzip-size package. *)
Variable gzipSizeSync : list Byte.byte -> N.

(** The inner function [record] of [gather], for the file whose
    [relative] path is [name]: the entry is made where [_.has] answers
    false, and [files[normalized][minKey] = data] throws where
    [files[normalized]] is undefined. *)
Definition record (options : Options) (name : string) (data : Variant)
  (fs : list (string * FileEntry)) : outcome (list (string * FileEntry)) :=
  let normalized := normalizeFilename options name in
  let min := isMinified options name in
  let minKey := if min then Kminified else Kunminified in
  let fs1 :=
    if has fs normalized then fs
    else files_set normalized (new_entry normalized) fs in
  match files_get normalized fs1 with
  | Some entry => Ok (files_set normalized (set_variant minKey data entry) fs1)
  | None => Throw TypeError
  end.

Definition gather (options : Options) (file : Vinyl) (st : State)
  : outcome State :=
  match contents file with
  | None => Ok st
  | Some buf =>
      fs ← record options (relative file)
             {| v_size := N.of_nat (length buf);
                v_gzipSize := gzipSizeSync buf |}
             (files st);
      Ok {| files := fs; extensions := extensions st |}
  end.
End Ingest.

(** ** Per-file ratios *)

(** [_.get(file, 'minified.size', 0)] and its sibling. *)
Definition size_or_0 (v : option Variant) : N :=
  match v with
  | Some d => v_size d
  | None => 0
  end.

(** [file[key].gzipSize]: reading a property of [undefined] throws. *)
Definition gzipSize_of (minKey : minKey) (file : FileEntry) : outcome N :=
  match get_variant minKey file with
  | Some d => Ok (v_gzipSize d)
  | None => Throw TypeError
  end.

Definition set_minificationSizeRatio (r : jsnum) (file : FileEntry) : FileEntry :=
  {| fe_name := fe_name file;
     fe_unminified := fe_unminified file;
     fe_minified := fe_minified file;
     fe_minificationSizeRatio := Some r;
     fe_compressionSizeRatio := fe_compressionSizeRatio file |}.

Definition set_compressionSizeRatio (r : jsnum) (file : FileEntry) : FileEntry :=
  {| fe_name := fe_name file;
     fe_unminified := fe_unminified file;
     fe_minified := fe_minified file;
     fe_minificationSizeRatio := fe_minificationSizeRatio file;
     fe_compressionSizeRatio := Some r |}.

(** The result is the entry as the function leaves it. *)
Definition determineCompressionSizeRatio (file : FileEntry) : outcome FileEntry :=
  let minified := size_or_0 (fe_minified file) in
  let unminified := size_or_0 (fe_unminified file) in
  compressed ← gzipSize_of (if truthy minified then Kminified else Kunminified) file;
  let file1 :=
    if truthy unminified && truthy minified
    then set_minificationSizeRatio (jsdiv minified unminified) file
    else file in
  Ok (set_compressionSizeRatio
        (jsdiv compressed (js_or unminified minified)) file1).

(** ** Extension aggregation *)

(** [_.last(name.split('.')).toLowerCase()] *)
Definition extension_of (name : string) : string :=
  toLowerCase (List.last (split_dot name) EmptyString).

(** [_.each(list, f)] over a state that [f] updates. *)
Fixpoint each {A S : Type} (f : A -> S -> outcome S) (l : list A) (s : S)
  : outcome S :=
  match l with
  | [] => Ok s
  | a :: rest => s' ← f a s; each f rest s'
  end.

(** The body of the inner loop of [postProcessFiles], on the bucket
    [entry]. *)
Definition fold_file (data : FileEntry) (unminified minified : N)
  (entry : Extension) : outcome Extension :=
  gz ← gzipSize_of (if truthy minified then Kminified else Kunminified) data;
  let size := e_size entry in
  let count := e_count entry in
  Ok {| e_size :=
          {| s_unminified := s_unminified size + unminified;
             s_minified := s_minified size + minified;
             s_src := s_src size + js_or unminified minified;
             s_dist := s_dist size + js_or minified unminified;
             s_gzip := s_gzip size + gz |};
        e_count :=
          {| c_unminified :=
               if truthy unminified && negb (truthy minified)
               then c_unminified count + 1 else c_unminified count;
             c_minified :=
               if negb (truthy unminified) && truthy minified
               then c_minified count + 1 else c_minified count;
             c_both :=
               if truthy unminified && truthy minified
               then c_both count + 1 else c_both count |};
        e_minificationRatio := e_minificationRatio entry;
        e_compressionRatio := e_compressionRatio entry |}.

(** The inner loop body with its lookup [extensions[extension]]. *)
Definition fold_into (data : FileEntry) (unminified minified : N)
  (extension : string) (exts : gmap string Extension)
  : outcome (gmap string Extension) :=
  match exts !! extension with
  | None => Throw TypeError
  | Some entry =>
      entry' ← fold_file data unminified minified entry;
      Ok (<[extension := entry']> exts)
  end.

(** The body of the outer loop of [postProcessFiles] for the property
    [name] of [files], whose value is [data]: the entry as it is left, and
    the new [extensions]. *)
Definition process_file (name : string) (data : FileEntry)
  (exts : gmap string Extension) : outcome (FileEntry * gmap string Extension) :=
  data' ← determineCompressionSizeRatio data;
  let extension := extension_of name in
  let exts1 :=
    match exts !! extension with
    | Some _ => exts
    | None => <[extension := emptyExtension]> exts
    end in
  let unminified := size_or_0 (fe_unminified data') in
  let minified := size_or_0 (fe_minified data') in
  exts2 ← each (fold_into data' unminified minified) ["*"; extension] exts1;
  Ok (data', exts2).

(** [_.forOwn(files, ...)] with that body. *)
Fixpoint forOwn_files (fs : list (string * FileEntry))
  (exts : gmap string Extension)
  : outcome (list (string * FileEntry) * gmap string Extension) :=
  match fs with
  | [] => Ok ([], exts)
  | (name, data) :: rest =>
      r ← process_file name data exts;
      r' ← forOwn_files rest (snd r);
      Ok ((name, fst r) :: fst r', snd r')
  end.

Definition postProcessFiles (st : State) : outcome State :=
  r ← forOwn_files (files st) (extensions st);
  Ok {| files := fst r; extensions := snd r |}.

(** ** Extension-level ratios *)

(** The sum of the three counters: [_.sum(_.values(data.count))]. *)
Definition sum_count (c : Count) : N :=
  c_minified c + c_unminified c + c_both c.

(** The releases of lodash that have [_.get] and [_.sum]. *)
Inductive lodash : Type := Lodash3 | Lodash4.

(** [_.sum(data.count)], on the object itself: release 3 sums the values of
    a collection, an object included; release 4 sums arrays and answers
    zero for a value without a [length]. *)
Definition sum_object (v : lodash) (c : Count) : N :=
  match v with
  | Lodash3 => sum_count c
  | Lodash4 => 0
  end.

(** The body of the loop of [postProcessExtensions]. *)
Definition extension_ratios (v : lodash) (data : Extension) : Extension :=
  let totalCount := sum_object v (e_count data) in
  {| e_count := e_count data;
     e_size := e_size data;
     e_minificationRatio :=
       Some {| mr_count :=
                 jsdiv (c_minified (e_count data) + c_both (e_count data))
                       totalCount;
               mr_size := jsdiv (s_dist (e_size data)) (s_src (e_size data)) |};
     e_compressionRatio :=
       Some (jsdiv (s_gzip (e_size data)) (s_src (e_size data))) |}.

Definition postProcessExtensions (v : lodash) (st : State) : State :=
  {| files := files st;
     extensions := extension_ratios v <$> extensions st |}.

(** ** Report *)

(** A cell of a table.  [CBytes n] stands for [prettyBytes(n)] and
    [CPercent v] for [(100 * v).toFixed(0) + '%']; [CDash] is the
    placeholder ['--']. *)
Inductive cell : Type :=
| CText (s : string)
| CNumber (n : N)
| CBytes (n : N)
| CPercent (v : jsnum)
| CDash.

(** What one call of the logger writes. *)
Inductive line : Type :=
| LNoData
| LFileCount (fileCount : nat)
| LBlank
| LMissing (missing fileCount : nat)
| LMissingFile (name : string)
| LAllMinified
| LHeading (s : string)
| LTable (head : list string) (rows : list (list cell)).

(** [num ? prettyBytes(num) : '--'] *)
Definition print (num : option N) : cell :=
  match num with
  | Some n => if truthy n then CBytes n else CDash
  | None => CDash
  end.

(** [num ? (100 * num).toFixed(0) + '%' : '--'] *)
Definition printPerc (num : option jsnum) : cell :=
  match num with
  | Some v => if truthy_num v then CPercent v else CDash
  | None => CDash
  end.

(** [a || b] on values that may be [undefined]. *)
Definition or_undefined (a b : option N) : option N :=
  match a with
  | Some n => if truthy n then a else b
  | None => b
  end.

(** Truthiness of a property that holds an object or is absent. *)
Definition is_present {A : Type} (v : option A) : bool :=
  match v with
  | Some _ => true
  | None => false
  end.

Fixpoint insert_sorted (s : string) (l : list string) : list string :=
  match l with
  | [] => [s]
  | h :: t => if String.leb s h then s :: l else h :: insert_sorted s t
  end.

(** [_.sortBy] on strings. *)
Definition sortBy (l : list string) : list string :=
  foldr insert_sorted [] l.

Definition fileColumns : list string :=
  ["file"; "size"; "minified size"; "gzipped size"; "min+gzip size";
   "minification ratio"; "compression ratio"; "bytes over wire"].

Definition extensionColumns : list string :=
  ["extension"; "count"; "size"; "minified size"; "best gzip size";
   "minification ratio"; "compression ratio"; "bytes over wire"].

(** [fileRow]: the row pushed for [filename]. *)
Definition fileRow (fs : list (string * FileEntry)) (filename : string)
  : outcome (list cell) :=
  match files_get filename fs with
  | None => Throw TypeError
  | Some data =>
      let size := v_size <$> fe_unminified data in
      let minSize := v_size <$> fe_minified data in
      let gzipSize := v_gzipSize <$> fe_unminified data in
      let minGzipSize := v_gzipSize <$> fe_minified data in
      Ok [CText filename; print size; print minSize; print gzipSize;
          print minGzipSize;
          printPerc (fe_minificationSizeRatio data);
          printPerc (fe_compressionSizeRatio data);
          print (or_undefined minGzipSize gzipSize)]
  end.

(** [extensionRow]: the row pushed for [extension]. *)
Definition extensionRow (exts : gmap string Extension) (extension : string)
  : outcome (list cell) :=
  match exts !! extension with
  | None => Throw TypeError
  | Some data =>
      match e_minificationRatio data with
      | None => Throw TypeError
      | Some minificationRatio =>
          Ok [CText extension;
              CNumber (sum_count (e_count data));
              print (Some (s_unminified (e_size data)));
              print (Some (s_minified (e_size data)));
              print (Some (s_gzip (e_size data)));
              printPerc (Some (mr_size minificationRatio));
              printPerc (e_compressionRatio data);
              print (Some (s_gzip (e_size data)))]
      end
  end.

(** [_.map]-like traversal with a function that may throw. *)
Fixpoint rows {A B : Type} (f : A -> outcome B) (l : list A) : outcome (list B) :=
  match l with
  | [] => Ok []
  | a :: rest => b ← f a; bs ← rows f rest; Ok (b :: bs)
  end.

(** [report]: the state it leaves and the lines it logs, in order.  The
    column names are the ones given to [_.startCase]. *)
Definition report (v : lodash) (st : State) : outcome (State * list line) :=
  let filenames := fst <$> files st in
  if Nat.eqb (length filenames) 0 then Ok (st, [LNoData])
  else
    st1 ← postProcessFiles st;
    let st2 := postProcessExtensions v st1 in
    let sortedFiles := sortBy filenames in
    let sortedExtensions :=
      sortBy (List.filter (fun k => negb (String.eqb k "*"))
                          (fst <$> map_to_list (extensions st2))) in
    let fileCount := length filenames in
    let needsMinification :=
      List.filter (fun kv => negb (is_present (fe_minified (snd kv))))
                  (files st2) in
    let missing :=
      if Nat.eqb (length needsMinification) 0 then [LAllMinified]
      else LMissing (length needsMinification) fileCount
           :: ((fun kv => LMissingFile (fe_name (snd kv))) <$> needsMinification) in
    fileRows ← rows (fileRow (files st2)) sortedFiles;
    extensionRows ← rows (extensionRow (extensions st2)) sortedExtensions;
    overallRow ← extensionRow (extensions st2) "*";
    Ok (st2,
        ([LFileCount fileCount; LBlank] ++ missing ++
        [LBlank;
         LHeading "File Statistics"; LTable fileColumns fileRows;
         LHeading "Extension Statistics:"; LTable extensionColumns extensionRows;
         LHeading "Overall Statistics:"; LTable extensionColumns [overallRow];
         LBlank])%list).

(** Is a table among the logged lines? *)
Definition is_table (l : line) : bool :=
  match l with
  | LTable _ _ => true
  | _ => false
  end.

(** ** Notions used to state the properties *)

(** The compressed size the specification names: that of the minified
    variant if there is one, else that of the unminified variant. *)
Definition compressed_of (file : FileEntry) : option N :=
  match fe_minified file with
  | Some b => Some (v_gzipSize b)
  | None => v_gzipSize <$> fe_unminified file
  end.

(** The compressed size chosen by the sizes: that of the minified variant
    when it is there with a size that is not zero, else that of the
    unminified one. *)
Definition compressed_by_size (file : FileEntry) : option N :=
  match fe_minified file with
  | Some b =>
      if decide (v_size b = 0) then v_gzipSize <$> fe_unminified file
      else Some (v_gzipSize b)
  | None => v_gzipSize <$> fe_unminified file
  end.

(** The divisor of the per-file ratio: the unminified size when that
    variant is there with a size that is not zero, else the minified size,
    [0] if there is no minified variant. *)
Definition divisor_of (file : FileEntry) : N :=
  match fe_unminified file with
  | Some a =>
      if decide (v_size a = 0) then size_or_0 (fe_minified file) else v_size a
  | None => size_or_0 (fe_minified file)
  end.

(** What one pass of the inner loop of [postProcessFiles] does to a bucket
    once the compressed size [gz] has been read. *)
Definition accumulate (unminified minified gz : N) (entry : Extension)
  : Extension :=
  {| e_size :=
       {| s_unminified := s_unminified (e_size entry) + unminified;
          s_minified := s_minified (e_size entry) + minified;
          s_src := s_src (e_size entry) + js_or unminified minified;
          s_dist := s_dist (e_size entry) + js_or minified unminified;
          s_gzip := s_gzip (e_size entry) + gz |};
     e_count :=
       {| c_unminified :=
            if truthy unminified && negb (truthy minified)
            then c_unminified (e_count entry) + 1
            else c_unminified (e_count entry);
          c_minified :=
            if negb (truthy unminified) && truthy minified
            then c_minified (e_count entry) + 1
            else c_minified (e_count entry);
          c_both :=
            if truthy unminified && truthy minified
            then c_both (e_count entry) + 1
            else c_both (e_count entry) |};
     e_minificationRatio := e_minificationRatio entry;
     e_compressionRatio := e_compressionRatio entry |}.

(** The compressed size both [determineCompressionSizeRatio] and
    [postProcessFiles] read. *)
Definition best_gzip (data : FileEntry) : outcome N :=
  gzipSize_of
    (if truthy (size_or_0 (fe_minified data)) then Kminified else Kunminified)
    data.

(** [extensions] once the bucket of [extension] is sure to exist. *)
Definition ensure_bucket (extension : string) (exts : gmap string Extension)
  : gmap string Extension :=
  match exts !! extension with
  | Some _ => exts
  | None => <[extension := emptyExtension]> exts
  end.

(** The sum of a field over the real buckets, all but the wildcard. *)
Definition sum_real (f : Extension -> N) (exts : gmap string Extension) : N :=
  map_fold (fun _ e acc => f e + acc) 0 (delete "*" exts).

(** The fields the wildcard bucket totals. *)
Definition summed_fields : list (Extension -> N) :=
  [fun e => s_src (e_size e);
   fun e => s_dist (e_size e);
   fun e => s_gzip (e_size e);
   fun e => s_minified (e_size e);
   fun e => s_unminified (e_size e);
   fun e => c_minified (e_count e);
   fun e => c_unminified (e_count e);
   fun e => c_both (e_count e)].

(** The wildcard invariant: each of those fields of the wildcard bucket is
    its sum over the real buckets. *)
Definition wildcard_is_sum (exts : gmap string Extension) : Prop :=
  exists w : Extension,
    exts !! "*" = Some w /\
    Forall (fun f => f w = sum_real f exts) summed_fields.

(** A field to which one pass of the inner loop adds an amount that does
    not depend on the bucket. *)
Definition additive (f : Extension -> N) : Prop :=
  f emptyExtension = 0 /\
  forall u m gz : N, exists d : N,
    forall e : Extension, f (accumulate u m gz e) = f e + d.

(** Aggregation followed by the extension-level ratio computation, as
    [report] runs them. *)
Definition aggregate (v : lodash) (st : State) : outcome State :=
  st1 ← postProcessFiles st;
  Ok (postProcessExtensions v st1).

(** The derived ratios of a file entry, of a bucket, and of a whole state. *)
Definition file_ratios (e : FileEntry) : option jsnum * option jsnum :=
  (fe_minificationSizeRatio e, fe_compressionSizeRatio e).

Definition bucket_ratios (e : Extension) : option MinificationRatio * option jsnum :=
  (e_minificationRatio e, e_compressionRatio e).

Definition derived_ratios (st : State)
  : list (string * (option jsnum * option jsnum))
    * gmap string (option MinificationRatio * option jsnum) :=
  ((fun kv => (fst kv, file_ratios (snd kv))) <$> files st,
   bucket_ratios <$> extensions st).

(** A field of the bucket at key [k], zero where there is no bucket. *)
Definition field_at (f : Extension -> N) (exts : gmap string Extension)
  (k : string) : N :=
  f (default emptyExtension (exts !! k)).

(** What folding one file of extension [extension] adds to the field [f] of
    the bucket at key [k]. *)
Definition contribution (f : Extension -> N) (u m gz : N)
  (extension k : string) : N :=
  (if decide (k = "*") then f (accumulate u m gz emptyExtension) else 0) +
  (if decide (k = extension) then f (accumulate u m gz emptyExtension) else 0).

(** The entries whose ratio computation does not throw. *)
Definition readable (file : FileEntry) : Prop :=
  is_present (fe_unminified file) = true \/ size_or_0 (fe_minified file) <> 0.

(** ** Notions used to state further properties *)

(** The stream handler at work: [gather] on each file of the stream, in
    the order of delivery, up to the end of the stream or to the first file
    on which [gather] throws.  The result is the state left behind and the
    error, if any. *)
Fixpoint gather_all (has : list (string * FileEntry) -> string -> bool)
  (gzipSizeSync : list Byte.byte -> N) (options : Options)
  (stream : list Vinyl) (st : State) : State * option error :=
  match stream with
  | [] => (st, None)
  | file :: rest =>
      match gather has gzipSizeSync options file st with
      | Ok st1 => gather_all has gzipSizeSync options rest st1
      | Throw e => (st, Some e)
      end
  end.

(** What every release of lodash grants of [_.has(files, key)]: an own key
    is found. *)
Definition sees_own_keys (has : list (string * FileEntry) -> string -> bool)
  : Prop :=
  forall (fs : list (string * FileEntry)) (k : string),
    is_present (files_get k fs) = true -> has fs k = true.

(** The names of the own properties of an entry. *)
Definition entry_properties (e : FileEntry) : list string :=
  (["name"] ++
   (if is_present (fe_unminified e) then ["unminified"] else []) ++
   (if is_present (fe_minified e) then ["minified"] else []) ++
   (if is_present (fe_minificationSizeRatio e)
    then ["minificationSizeRatio"] else []) ++
   (if is_present (fe_compressionSizeRatio e)
    then ["compressionSizeRatio"] else []))%list.

(** An instance of [_.has(files, key)]: it finds an own key, and it reads a
    key [a.p] with one dot, which is no own key, as the path from the entry
    of [a] to its property [p], as lodash does.  Longer paths and brackets
    are not followed by this instance. *)
Definition has_dotted (fs : list (string * FileEntry)) (k : string) : bool :=
  is_present (files_get k fs) ||
  match split_dot k with
  | [a; p] =>
      match files_get a fs with
      | Some e => existsb (String.eqb p) (entry_properties e)
      | None => false
      end
  | _ => false
  end.

(** What ingest keeps true of the entry stored under a key: it carries the
    key as its name, has at least one variant and no ratio yet. *)
Definition ingested_entry (kv : string * FileEntry) : Prop :=
  fe_name (snd kv) = fst kv /\
  is_present (fe_unminified (snd kv)) || is_present (fe_minified (snd kv)) = true /\
  fe_minificationSizeRatio (snd kv) = None /\
  fe_compressionSizeRatio (snd kv) = None.

(** Does the name contain a dot? *)
Fixpoint has_dot (s : string) : bool :=
  match s with
  | EmptyString => false
  | String c s' => Ascii.eqb c "."%char || has_dot s'
  end.

(** What the files of [fs] whose extension is [k] add up to, for a
    quantity [q] of an entry; for the wildcard key, what all files add up
    to, a file whose own extension is the wildcard key being taken twice. *)
Fixpoint folded_total (q : FileEntry -> N) (k : string)
  (fs : list (string * FileEntry)) : N :=
  match fs with
  | [] => 0
  | (name, data) :: rest =>
      (if decide (k = "*") then q data else 0) +
      (if decide (k = extension_of name) then q data else 0) +
      folded_total q k rest
  end.

(** The quantities of an entry that [postProcessFiles] adds to the sizes
    of a bucket. *)
Definition q_unminified (data : FileEntry) : N := size_or_0 (fe_unminified data).
Definition q_minified (data : FileEntry) : N := size_or_0 (fe_minified data).
Definition q_src (data : FileEntry) : N :=
  js_or (size_or_0 (fe_unminified data)) (size_or_0 (fe_minified data)).
Definition q_dist (data : FileEntry) : N :=
  js_or (size_or_0 (fe_minified data)) (size_or_0 (fe_unminified data)).

(** Has the entry a variant that is not empty? *)
Definition counted (data : FileEntry) : N :=
  if truthy (size_or_0 (fe_unminified data)) || truthy (size_or_0 (fe_minified data))
  then 1 else 0.

(** A finite quotient between zero and one. *)
Definition is_fraction (v : jsnum) : Prop :=
  match v with
  | Fin q => (0 <= q)%Q /\ (q <= 1)%Q
  | _ => False
  end.

(** The first cell of a row, when it is a text. *)
Definition row_name (row : list cell) : option string :=
  match row with
  | CText s :: _ => Some s
  | _ => None
  end.

(** The compressed size of an entry that is added to [size.gzip] of a
    bucket; zero stands for an entry on which reading it throws. *)
Definition q_gzip (data : FileEntry) : N :=
  match best_gzip data with
  | Ok gz => gz
  | Throw _ => 0
  end.

(** [_.has(files, key)] where no key is read as a path: the test for an
    own key, which is what lodash answers for every key without a dot and
    without a bracket. *)
Definition has_own (fs : list (string * FileEntry)) (k : string) : bool :=
  is_present (files_get k fs).

(** * Properties *)

(** ** The normalizer *)

Section Normalizer.

Lemma strip_prefix_Some (p s r : string) :
  strip_prefix p s = Some r <-> s = (p ++ r)%string.
Proof.
  revert s; induction p as [|a p IH]; intros s; simpl.
  - split; [intros [= ->] | intros ->]; reflexivity.
  - destruct s as [|b s]; [split; discriminate|].
    destruct (Ascii.eqb_spec a b) as [->|Hne].
    + rewrite IH. split; [intros ->; reflexivity | intros [= ->]; reflexivity].
    + split; [discriminate | intros [= -> _]; contradiction].
Qed.

Lemma string_length_app (a b : string) :
  String.length (a ++ b) = (String.length a + String.length b)%nat.
Proof. induction a as [|c a IH]; simpl; [reflexivity | now rewrite IH]. Qed.

(** Where the marker does not occur, nothing is removed. *)
Lemma regex_remove_no_match (pat s : string) :
  regex_test pat s = false -> regex_remove pat s = s.
Proof.
  induction s as [|c s IH]; simpl.
  - destruct (strip_prefix pat ""); [discriminate | reflexivity].
  - destruct (strip_prefix pat (String c s)); [discriminate|].
    intros H. now rewrite IH.
Qed.

(** Where it occurs, the occurrence that starts first is cut out. *)
Lemma regex_remove_leftmost (pat s : string) :
  regex_test pat s = true ->
  exists pre post : string,
    s = (pre ++ pat ++ post)%string /\
    regex_remove pat s = (pre ++ post)%string /\
    forall pre' post' : string,
      s = (pre' ++ pat ++ post')%string ->
      (String.length pre <= String.length pre')%nat.
Proof.
  induction s as [|c s IH]; simpl.
  - destruct (strip_prefix pat "") as [rest|] eqn:E; [intros _|discriminate].
    exists EmptyString, rest. apply strip_prefix_Some in E.
    repeat split; simpl; [exact E | lia].
  - destruct (strip_prefix pat (String c s)) as [rest|] eqn:E.
    + intros _. exists EmptyString, rest. apply strip_prefix_Some in E.
      repeat split; simpl; [exact E | lia].
    + intros H. destruct (IH H) as (pre & post & Hs & Hr & Hmin).
      exists (String c pre), post. simpl.
      split; [exact (f_equal (String c) Hs)|].
      split; [exact (f_equal (String c) Hr)|].
      intros [|c' pre'] post' Heq.
      * assert (strip_prefix pat (String c s) = Some post') as E'
          by (apply strip_prefix_Some; exact Heq).
        congruence.
      * change (String c s = String c' (pre' ++ pat ++ post')%string) in Heq.
        injection Heq as -> Heq. specialize (Hmin _ _ Heq). simpl. lia.
Qed.

(** For a marker that is not empty, testing for the marker and
    comparing the name with its normal form agree. *)
Lemma regex_test_iff_changed (pat s : string) :
  pat <> EmptyString ->
  regex_test pat s = true <-> regex_remove pat s <> s.
Proof.
  intros Hpat. split.
  - intros H. destruct (regex_remove_leftmost _ _ H) as (pre & post & Hs & Hr & _).
    intros Heq. rewrite Hr in Heq. apply (f_equal String.length) in Heq.
    rewrite Hs in Heq. rewrite !string_length_app in Heq.
    destruct pat; [contradiction | simpl in Heq; lia].
  - intros H. destruct (regex_test pat s) eqn:E; [reflexivity|].
    now apply regex_remove_no_match in E.
Qed.

End Normalizer.

(** C6, as the specification words it, fails: of two markers in a name only
    the first is removed, and the result still matches the marker. *)
Lemma C6_counterexample :
  normalizeFilename defaultOptions "a.min.min.js" = "a.min.js" /\
  isMinified defaultOptions (normalizeFilename defaultOptions "a.min.min.js") = true.
Proof. split; reflexivity. Qed.

(** C6, amended: for every filename in which the marker occurs (once or
    several times), normalization removes exactly the leftmost occurrence:
    the name splits as [pre ++ marker ++ post] with no occurrence starting
    before [pre] ends, and the result is [pre ++ post].  The result is a
    function of the marker and the filename alone: the expression has no
    [g] flag and so carries no position from one call to the next. *)
Theorem C6_normalize_removes_leftmost (options : Options) (filename : string) :
  isMinified options filename = true ->
  exists pre post : string,
    filename = (pre ++ minifiedName options ++ post)%string /\
    normalizeFilename options filename = (pre ++ post)%string /\
    forall pre' post' : string,
      filename = (pre' ++ minifiedName options ++ post')%string ->
      (String.length pre <= String.length pre')%nat.
Proof. apply regex_remove_leftmost. Qed.

Lemma C6_witness :
  exists pre post : string,
    "a.min.min.js" = (pre ++ ".min" ++ post)%string /\
    normalizeFilename defaultOptions "a.min.min.js" = (pre ++ post)%string /\
    forall pre' post' : string,
      "a.min.min.js" = (pre' ++ ".min" ++ post')%string ->
      (String.length pre <= String.length pre')%nat.
Proof.
  apply (C6_normalize_removes_leftmost defaultOptions "a.min.min.js").
  reflexivity.
Defined.

(** ** Ingest *)

Lemma files_get_set_eq (name : string) (e : FileEntry)
  (fs : list (string * FileEntry)) :
  files_get name (files_set name e fs) = Some e.
Proof.
  induction fs as [|[k e0] fs IH]; simpl.
  - now rewrite String.eqb_refl.
  - destruct (String.eqb k name) eqn:E; simpl; rewrite E; [reflexivity | exact IH].
Qed.

Lemma files_get_set_ne (name name' : string) (e : FileEntry)
  (fs : list (string * FileEntry)) :
  name <> name' ->
  files_get name' (files_set name e fs) = files_get name' fs.
Proof.
  intros Hne. induction fs as [|[k e0] fs IH]; simpl.
  - destruct (String.eqb_spec name name'); [contradiction | reflexivity].
  - destruct (String.eqb_spec k name) as [->|Hk]; simpl.
    + destruct (String.eqb_spec name name'); [contradiction | reflexivity].
    + now rewrite IH.
Qed.

Lemma set_variant_twice (key : minKey) (d1 d2 : Variant) (e : FileEntry) :
  set_variant key d2 (set_variant key d1 e) = set_variant key d2 e.
Proof. now destruct key. Qed.

Lemma files_set_twice (name : string) (e1 e2 : FileEntry)
  (fs : list (string * FileEntry)) :
  files_set name e2 (files_set name e1 fs) = files_set name e2 fs.
Proof.
  induction fs as [|[k e0] fs IH]; simpl.
  - now rewrite String.eqb_refl.
  - destruct (String.eqb k name) eqn:E; simpl; rewrite E; [reflexivity|].
    now rewrite IH.
Qed.

(** [record] throws exactly where [_.has] answers true for a normalized
    name that is no own key of [files]: a name read as a path. *)
Lemma record_throws_iff (has : list (string * FileEntry) -> string -> bool)
  (options : Options) (name : string) (data : Variant)
  (fs : list (string * FileEntry)) :
  record has options name data fs = Throw TypeError <->
  has fs (normalizeFilename options name) = true /\
  files_get (normalizeFilename options name) fs = None.
Proof.
  unfold record. destruct (has fs (normalizeFilename options name)).
  - destruct (files_get _ fs); split;
      [discriminate | intros [_ H]; discriminate | auto | reflexivity].
  - rewrite files_get_set_eq. split; [discriminate | intros [H _]; discriminate].
Qed.

(** Where it returns, and [_.has] finds the own keys, [files] is as
    [record_result] says. *)
Lemma record_Ok_result (has : list (string * FileEntry) -> string -> bool)
  (options : Options) (name : string) (data : Variant)
  (fs fs' : list (string * FileEntry)) :
  sees_own_keys has ->
  record has options name data fs = Ok fs' ->
  fs' = record_result options name data fs.
Proof.
  intros Hown. unfold record, record_result.
  destruct (has fs (normalizeFilename options name)) eqn:Ehas.
  - destruct (files_get _ fs); [now intros [= <-] | discriminate].
  - rewrite files_get_set_eq, files_set_twice.
    destruct (files_get _ fs) as [e|] eqn:Eget; [|now intros [= <-]].
    specialize (Hown fs (normalizeFilename options name)).
    rewrite Eget in Hown. specialize (Hown eq_refl). congruence.
Qed.

Lemma has_own_sees_own_keys : sees_own_keys has_own.
Proof. intros fs k H. exact H. Qed.

(** Where no key is read as a path, [record] never throws. *)
Lemma record_has_own (options : Options) (name : string) (data : Variant)
  (fs : list (string * FileEntry)) :
  record has_own options name data fs
  = Ok (record_result options name data fs).
Proof.
  unfold record, record_result, has_own.
  destruct (files_get (normalizeFilename options name) fs) as [e|] eqn:E; simpl.
  - now rewrite E.
  - now rewrite files_get_set_eq, files_set_twice.
Qed.

Lemma has_dotted_sees_own_keys : sees_own_keys has_dotted.
Proof. intros fs k H. unfold has_dotted. now rewrite H. Qed.

(** The entry that a returning [record] leaves at the normalized name. *)
Lemma record_result_entry (options : Options) (name : string) (data : Variant)
  (fs : list (string * FileEntry)) :
  let normalized := normalizeFilename options name in
  let before := default (new_entry normalized) (files_get normalized fs) in
  exists entry : FileEntry,
    files_get normalized (record_result options name data fs) = Some entry /\
    (isMinified options name = true ->
     fe_minified entry = Some data /\
     fe_unminified entry = fe_unminified before) /\
    (isMinified options name = false ->
     fe_unminified entry = Some data /\
     fe_minified entry = fe_minified before).
Proof.
  intros normalized before.
  unfold record_result. fold normalized. rewrite files_get_set_eq.
  eexists; split; [reflexivity|].
  assert (Hb : match files_get normalized fs with
               | Some e => e
               | None => new_entry normalized
               end = before).
  { unfold before. now destruct (files_get normalized fs). }
  rewrite Hb.
  destruct (isMinified options name);
    (split; [intros H | intros H]); try discriminate; split; reflexivity.
Qed.

(** A name that [_.has] reads as a path makes [record] throw: with [a]
    recorded, [a.name] is the path from the entry of [a] to its name. *)
Example record_path_key_throws :
  has_dotted (record_result defaultOptions "a" (mkVariant 10 30) []) "a.name" = true /\
  record has_dotted defaultOptions "a.name" (mkVariant 5 25)
    (record_result defaultOptions "a" (mkVariant 10 30) []) = Throw TypeError.
Proof. split; reflexivity. Qed.

(** With the default marker [/\.min/], [isMinified] answers true
    exactly for the names that [normalizeFilename] changes.  Whatever
    [_.has] answers beyond finding the own keys, [record] throws only where
    it answers true for a normalized name that is no key, and stores
    nothing then; wherever it returns, it has stored the data under
    [minified] of the entry at the normalized key when normalization changed
    the name, under [unminified] when it did not, leaving the other variant
    of that entry as it was. *)
Lemma classification_matches_key
  (has : list (string * FileEntry) -> string -> bool) :
  sees_own_keys has ->
  (forall filename : string,
     isMinified defaultOptions filename = true <->
     normalizeFilename defaultOptions filename <> filename) /\
  (forall (name : string) (data : Variant) (fs : list (string * FileEntry)),
     let normalized := normalizeFilename defaultOptions name in
     let before := default (new_entry normalized) (files_get normalized fs) in
     (record has defaultOptions name data fs = Throw TypeError <->
      has fs normalized = true /\ files_get normalized fs = None) /\
     (forall fs' : list (string * FileEntry),
        record has defaultOptions name data fs = Ok fs' ->
        exists entry : FileEntry,
          files_get normalized fs' = Some entry /\
          (normalized <> name ->
           fe_minified entry = Some data /\
           fe_unminified entry = fe_unminified before) /\
          (normalized = name ->
           fe_unminified entry = Some data /\
           fe_minified entry = fe_minified before))).
Proof.
  intros Hown.
  assert (Hiff : forall filename : string,
            isMinified defaultOptions filename = true <->
            normalizeFilename defaultOptions filename <> filename).
  { intros filename. apply regex_test_iff_changed. discriminate. }
  split; [exact Hiff|].
  intros name data fs normalized before.
  split; [apply record_throws_iff|].
  intros fs' Hok. apply (record_Ok_result _ _ _ _ _ _ Hown) in Hok as ->.
  destruct (record_result_entry defaultOptions name data fs)
    as (entry & Hget & Hmin & Hunmin).
  exists entry. split; [exact Hget|]. split.
  - intros Hne. apply Hmin. now apply Hiff.
  - intros Heq. apply Hunmin.
    destruct (isMinified defaultOptions name) eqn:E; [|reflexivity].
    apply Hiff in E. contradiction.
Qed.

Example classification_matches_key_pair :
  exists (fs' : list (string * FileEntry)) (entry : FileEntry),
    record has_dotted defaultOptions "app.min.css" (mkVariant 400 90)
      (record_result defaultOptions "app.css" (mkVariant 500 100) []) = Ok fs' /\
    files_get "app.css" fs' = Some entry /\
    fe_minified entry = Some (mkVariant 400 90) /\
    fe_unminified entry = Some (mkVariant 500 100).
Proof.
  destruct (proj2 (classification_matches_key has_dotted
                     has_dotted_sees_own_keys)
              "app.min.css" (mkVariant 400 90)
              (record_result defaultOptions "app.css" (mkVariant 500 100) []))
    as [_ Hok].
  destruct (Hok _ eq_refl) as (entry & Hget & Hmin & _).
  eexists _, entry. split; [reflexivity|]. split; [exact Hget|].
  apply Hmin. discriminate.
Qed.

(** C10 fails on the code, in what it says of ingest: with the file [a]
    ingested, the minified file [a.min.name] is classified as minified and
    has the normal form [a.name].  That is no key of [files], but [_.has]
    reads it as the path to the name of the entry of [a] and answers true:
    no entry is made, [files[normalized][minKey] = data] throws a
    [TypeError], and the file is recorded under no key although stripping
    the marker changed its name.  The stream stops there, with [files] as
    the first file left it. *)
Theorem C10_path_key_throws (gzipSizeSync : list Byte.byte -> N) :
  let first := {| relative := "a"; contents := Some [] |} in
  let second := {| relative := "a.min.name"; contents := Some [] |} in
  let st1 :=
    {| files :=
         [("a", set_variant Kunminified
                  {| v_size := 0; v_gzipSize := gzipSizeSync [] |}
                  (new_entry "a"))];
       extensions := initialExtensions |} in
  isMinified defaultOptions "a.min.name" = true /\
  normalizeFilename defaultOptions "a.min.name" = "a.name" /\
  gather has_dotted gzipSizeSync defaultOptions first initialState = Ok st1 /\
  files_get "a.name" (files st1) = None /\
  has_dotted (files st1) "a.name" = true /\
  gather has_dotted gzipSizeSync defaultOptions second st1 = Throw TypeError /\
  gather_all has_dotted gzipSizeSync defaultOptions [first; second] initialState
  = (st1, Some TypeError).
Proof. repeat split; reflexivity. Qed.

(** ** Per-file ratios *)

(** The variants and the name are not touched. *)
Lemma determine_keeps_variants (file file' : FileEntry) :
  determineCompressionSizeRatio file = Ok file' ->
  fe_name file' = fe_name file /\
  fe_unminified file' = fe_unminified file /\
  fe_minified file' = fe_minified file.
Proof.
  unfold determineCompressionSizeRatio.
  destruct (gzipSize_of _ file) as [gz|]; simpl; [|discriminate].
  intros [= <-].
  destruct (truthy _ && truthy _); simpl; auto.
Qed.

(** The function throws exactly on an entry that has no unminified variant
    and whose minified variant is missing or empty. *)
Lemma determine_throws_iff (file : FileEntry) :
  determineCompressionSizeRatio file = Throw TypeError <->
  fe_unminified file = None /\ size_or_0 (fe_minified file) = 0.
Proof.
  destruct file as [name [a|] [b|] r1 r2];
    unfold determineCompressionSizeRatio, gzipSize_of, truthy; simpl;
    try destruct (N.eqb_spec (v_size b) 0); simpl;
    (split; [intros H | intros [H1 H2]]);
    try discriminate; try contradiction; auto.
Qed.

(** C1, as the specification words it, fails: an empty minified variant
    next to an unminified one of 500 bytes leaves the ratio undefined,
    where the claim asks for [0 / 500]. *)
Lemma C1_counterexample :
  let file :=
    {| fe_name := "app.css";
       fe_unminified := Some (mkVariant 500 100);
       fe_minified := Some (mkVariant 0 20);
       fe_minificationSizeRatio := None;
       fe_compressionSizeRatio := None |} in
  exists file' : FileEntry,
    determineCompressionSizeRatio file = Ok file' /\
    fe_minificationSizeRatio file' = None /\
    fe_minificationSizeRatio file' <> Some (jsdiv 0 500).
Proof.
  eexists. split; [reflexivity|]. split; [reflexivity|].
  vm_compute. discriminate.
Qed.

(** C1, amended: for an entry with both variants, of sizes [A]
    (unminified) and [B] (minified) both different from zero, the ratio
    computation sets [minificationSizeRatio] to [B / A]; for an entry with
    both variants one of which is empty, and for an entry with one variant
    only, it returns and leaves [minificationSizeRatio] as it was, which is
    undefined for an entry that comes from ingest.  (An entry whose only
    variant is an empty minified one is not covered.) *)
Theorem C1_minificationSizeRatio (file : FileEntry) :
  (forall a b : Variant,
     fe_unminified file = Some a -> fe_minified file = Some b ->
     v_size a <> 0 -> v_size b <> 0 ->
     exists file' : FileEntry,
       determineCompressionSizeRatio file = Ok file' /\
       fe_minificationSizeRatio file' = Some (jsdiv (v_size b) (v_size a))) /\
  (forall a b : Variant,
     fe_unminified file = Some a -> fe_minified file = Some b ->
     v_size a = 0 \/ v_size b = 0 ->
     exists file' : FileEntry,
       determineCompressionSizeRatio file = Ok file' /\
       fe_minificationSizeRatio file' = fe_minificationSizeRatio file) /\
  (forall a : Variant,
     fe_unminified file = Some a -> fe_minified file = None ->
     exists file' : FileEntry,
       determineCompressionSizeRatio file = Ok file' /\
       fe_minificationSizeRatio file' = fe_minificationSizeRatio file) /\
  (forall b : Variant,
     fe_unminified file = None -> fe_minified file = Some b ->
     v_size b <> 0 ->
     exists file' : FileEntry,
       determineCompressionSizeRatio file = Ok file' /\
       fe_minificationSizeRatio file' = fe_minificationSizeRatio file).
Proof.
  destruct file as [name u m r1 r2].
  unfold determineCompressionSizeRatio, gzipSize_of, truthy; simpl.
  repeat split.
  - intros a b -> -> Ha Hb. simpl.
    apply N.eqb_neq in Ha, Hb. rewrite Ha, Hb. simpl. eauto.
  - intros a b -> -> Hz. simpl.
    destruct (N.eqb_spec (v_size b) 0) as [Eb|Eb]; simpl.
    + rewrite andb_false_r. eauto.
    + destruct Hz as [Ea|Eb']; [|contradiction].
      apply N.eqb_eq in Ea. rewrite Ea. simpl. eauto.
  - intros a -> ->. simpl. rewrite andb_false_r. eauto.
  - intros b -> -> Hb. simpl.
    apply N.eqb_neq in Hb. rewrite Hb. simpl. eauto.
Qed.

Lemma C1_witness :
  exists file' : FileEntry,
    determineCompressionSizeRatio
      {| fe_name := "app.css";
         fe_unminified := Some (mkVariant 500 100);
         fe_minified := Some (mkVariant 400 90);
         fe_minificationSizeRatio := None;
         fe_compressionSizeRatio := None |} = Ok file' /\
    fe_minificationSizeRatio file' = Some (jsdiv 400 500).
Proof.
  apply (proj1 (C1_minificationSizeRatio _) (mkVariant 500 100) (mkVariant 400 90));
    [reflexivity | reflexivity | discriminate | discriminate].
Defined.

Lemma files_get_Forall (Q : FileEntry -> Prop) (name : string) (e : FileEntry)
  (fs : list (string * FileEntry)) :
  Forall (fun kv => Q (snd kv)) fs -> files_get name fs = Some e -> Q e.
Proof.
  induction fs as [|[k e0] fs IH]; simpl; [discriminate|].
  intros Hall. apply Forall_cons in Hall as [H0 Hall]. simpl in H0.
  destruct (String.eqb k name); [intros [= <-]; exact H0 | now apply IH].
Qed.

Lemma files_set_Forall (Q : FileEntry -> Prop) (name : string) (e : FileEntry)
  (fs : list (string * FileEntry)) :
  Forall (fun kv => Q (snd kv)) fs -> Q e ->
  Forall (fun kv => Q (snd kv)) (files_set name e fs).
Proof.
  intros Hall He. induction fs as [|[k e0] fs IH]; simpl.
  - repeat constructor. exact He.
  - apply Forall_cons in Hall as [H0 Hall].
    destruct (String.eqb k name); constructor; auto.
Qed.

(** Entries made by [record] alone carry no ratio. *)
Lemma record_leaves_ratios_undefined
  (has : list (string * FileEntry) -> string -> bool) (options : Options)
  (name : string) (data : Variant) (fs fs' : list (string * FileEntry)) :
  record has options name data fs = Ok fs' ->
  Forall (fun kv => fe_minificationSizeRatio (snd kv) = None) fs ->
  Forall (fun kv => fe_minificationSizeRatio (snd kv) = None) fs'.
Proof.
  intros Hok Hall. revert Hok. unfold record.
  set (k := normalizeFilename options name).
  set (P := fun e => fe_minificationSizeRatio e = None).
  assert (H1 : Forall (fun kv => P (snd kv))
                 (if has fs k then fs else files_set k (new_entry k) fs)).
  { destruct (has fs k); [exact Hall|].
    apply (files_set_Forall P); [exact Hall | reflexivity]. }
  destruct (files_get k _) as [e|] eqn:E; [|discriminate].
  intros [= <-]. apply (files_set_Forall P); [exact H1|].
  apply (files_get_Forall P) in E; [|exact H1].
  unfold P in *. now destruct (isMinified options name).
Qed.

(** What the ratio computation does on every entry it accepts, the choice
    of the compressed size being made by the sizes. *)
Lemma compressionSizeRatio_by_size (file : FileEntry) :
  readable file ->
  exists (file' : FileEntry) (compressed : N),
    determineCompressionSizeRatio file = Ok file' /\
    compressed_by_size file = Some compressed /\
    fe_compressionSizeRatio file' = Some (jsdiv compressed (divisor_of file)).
Proof.
  destruct file as [name [a|] [b|] r1 r2];
    unfold determineCompressionSizeRatio, gzipSize_of, compressed_by_size,
      divisor_of, js_or, truthy, readable; simpl;
    (intros [H|H]; try discriminate; try contradiction);
    try destruct (N.eqb_spec (v_size a) 0) as [Ea|Ea];
    try destruct (N.eqb_spec (v_size b) 0) as [Eb|Eb];
    repeat case_decide; try contradiction; simpl; eauto.
Qed.

(** C2, as the specification words it, fails: with an empty unminified
    variant next to a minified one of 400 bytes, the divisor is the
    minified size ([90 / 400]), not the unminified size ([90 / 0]). *)
Lemma C2_counterexample :
  let file :=
    {| fe_name := "app.css";
       fe_unminified := Some (mkVariant 0 20);
       fe_minified := Some (mkVariant 400 90);
       fe_minificationSizeRatio := None;
       fe_compressionSizeRatio := None |} in
  exists file' : FileEntry,
    determineCompressionSizeRatio file = Ok file' /\
    fe_compressionSizeRatio file' = Some (jsdiv 90 400) /\
    fe_compressionSizeRatio file' <> Some (jsdiv 90 0).
Proof.
  eexists. split; [reflexivity|]. split; [reflexivity|].
  vm_compute. discriminate.
Qed.

(** C2, amended: for every entry with at least one variant, whose minified
    variant, if there is one, is not empty, the ratio computation sets
    [compressionSizeRatio] to [compressed / divisor], where [compressed] is
    the gzip size of the minified variant if there is one, else that of the
    unminified variant, and [divisor] is the unminified size if that
    variant is there and not empty, else the minified size (zero without a
    minified variant). *)
Theorem C2_compressionSizeRatio (file : FileEntry) :
  (forall b : Variant, fe_minified file = Some b -> v_size b <> 0) ->
  is_present (fe_unminified file) || is_present (fe_minified file) = true ->
  exists (file' : FileEntry) (compressed : N),
    determineCompressionSizeRatio file = Ok file' /\
    compressed_of file = Some compressed /\
    fe_compressionSizeRatio file' = Some (jsdiv compressed (divisor_of file)).
Proof.
  intros Hmin Hsome.
  destruct (compressionSizeRatio_by_size file) as (file' & c & Hdet & Hc & Hr).
  - unfold readable.
    destruct (fe_unminified file) as [a|]; [left; reflexivity|]. right.
    destruct (fe_minified file) as [b|]; [|discriminate].
    simpl. exact (Hmin b eq_refl).
  - exists file', c. split; [exact Hdet|]. split; [|exact Hr].
    revert Hc. unfold compressed_by_size, compressed_of.
    destruct (fe_minified file) as [b|]; [|trivial].
    case_decide as Hb; [|trivial]. now apply Hmin in Hb.
Qed.

Lemma C2_witness :
  let file :=
    {| fe_name := "app.css";
       fe_unminified := Some (mkVariant 500 100);
       fe_minified := Some (mkVariant 400 90);
       fe_minificationSizeRatio := None;
       fe_compressionSizeRatio := None |} in
  exists (file' : FileEntry) (compressed : N),
    determineCompressionSizeRatio file = Ok file' /\
    compressed_of file = Some compressed /\
    fe_compressionSizeRatio file' = Some (jsdiv compressed (divisor_of file)).
Proof.
  intros file. apply (C2_compressionSizeRatio file).
  - intros b [= <-]. discriminate.
  - reflexivity.
Defined.

(** ** Extension-level ratios *)

(** What [postProcessExtensions] leaves in every bucket: the three
    quotients, the first one over what [_.sum(data.count)] returns; no
    counter and no size is changed. *)
Lemma postProcessExtensions_lookup (v : lodash) (st : State) (extension : string)
  (data : Extension) :
  extensions st !! extension = Some data ->
  exists data' : Extension,
    extensions (postProcessExtensions v st) !! extension = Some data' /\
    e_minificationRatio data' =
      Some {| mr_count :=
                jsdiv (c_minified (e_count data) + c_both (e_count data))
                      (sum_object v (e_count data));
              mr_size := jsdiv (s_dist (e_size data)) (s_src (e_size data)) |} /\
    e_compressionRatio data' =
      Some (jsdiv (s_gzip (e_size data)) (s_src (e_size data))) /\
    e_count data' = e_count data /\
    e_size data' = e_size data.
Proof.
  intros Hget. exists (extension_ratios v data).
  split; [|repeat split].
  unfold postProcessExtensions; simpl.
  now rewrite lookup_fmap, Hget.
Qed.

(** C4 fails on the code: with an empty file [empty.css] next to
    [app.css] and [app.min.css], the bucket [css] holds two files, one of
    them with a minified form, so the claim asks for
    [minificationRatio.count = 1 / 2].  The empty file is in none of the
    three counters, and the code divides by [_.sum(data.count)]: it gets
    [1 / 1] where lodash sums the values of the object and [1 / 0] where it
    answers zero.  The two quotients over the sizes are as the claim has
    them. *)
Theorem C4_count_ratio_misses_empty_file (v : lodash) :
  let fs :=
    record_result defaultOptions "app.min.css" (mkVariant 400 90)
      (record_result defaultOptions "app.css" (mkVariant 500 100)
         (record_result defaultOptions "empty.css" (mkVariant 0 20) [])) in
  exists (st' : State) (b : Extension) (r : MinificationRatio),
    aggregate v {| files := fs; extensions := initialExtensions |} = Ok st' /\
    extensions st' !! "css" = Some b /\
    e_minificationRatio b = Some r /\
    length (List.filter (fun kv => String.eqb (extension_of (fst kv)) "css") fs)
      = 2%nat /\
    c_minified (e_count b) + c_both (e_count b) = 1 /\
    mr_count r = match v with Lodash3 => jsdiv 1 1 | Lodash4 => jsdiv 1 0 end /\
    mr_count r <> jsdiv 1 2 /\
    mr_size r = jsdiv (s_dist (e_size b)) (s_src (e_size b)) /\
    mr_size r = jsdiv 400 500 /\
    e_compressionRatio b = Some (jsdiv (s_gzip (e_size b)) (s_src (e_size b))) /\
    e_compressionRatio b = Some (jsdiv 110 500).
Proof.
  intros fs. destruct v.
  - eexists _, _, _. split; [vm_compute; reflexivity|].
    split; [vm_compute; reflexivity|]. split; [reflexivity|].
    repeat split; try reflexivity. vm_compute. discriminate.
  - eexists _, _, _. split; [vm_compute; reflexivity|].
    split; [vm_compute; reflexivity|]. split; [reflexivity|].
    repeat split; try reflexivity. vm_compute. discriminate.
Qed.

(** No bucket is added or removed by the ratio computation. *)
Lemma postProcessExtensions_dom (v : lodash) (st : State) (extension : string) :
  extensions (postProcessExtensions v st) !! extension = None <->
  extensions st !! extension = None.
Proof.
  unfold postProcessExtensions; simpl. rewrite lookup_fmap.
  destruct (extensions st !! extension); simpl; split; congruence.
Qed.

(** ** Report *)

(** C9: when [files] is empty, [report] logs the one notice, leaves
    [files] and [extensions] as they are, and logs no table. *)
Theorem C9_no_data (v : lodash) (st : State) :
  files st = [] ->
  exists out : list line,
    report v st = Ok (st, out) /\
    out = [LNoData] /\
    existsb is_table out = false.
Proof.
  intros Hfiles. exists [LNoData].
  unfold report. rewrite Hfiles. simpl. auto.
Qed.

Lemma C9_witness :
  exists out : list line,
    report Lodash3 initialState = Ok (initialState, out) /\
    out = [LNoData] /\
    existsb is_table out = false.
Proof. apply (C9_no_data Lodash3 initialState). reflexivity. Defined.

(** With any file ingested the tables are logged, or the run throws. *)
Lemma report_tables_when_files (v : lodash) (st st' : State) (out : list line) :
  files st <> [] -> report v st = Ok (st', out) -> existsb is_table out = true.
Proof.
  intros Hne. unfold report.
  destruct (files st) as [|kv fs] eqn:E; [contradiction|]. simpl.
  destruct (postProcessFiles st) as [st1|]; simpl; [|discriminate].
  destruct (rows (fileRow _) _) as [fileRows|]; simpl; [|discriminate].
  destruct (rows (extensionRow _) _) as [extensionRows|]; simpl; [|discriminate].
  destruct (extensionRow _ "*") as [overallRow|]; simpl; [|discriminate].
  intros [= <- <-]. apply existsb_exists.
  exists (LTable fileColumns fileRows). split; [|reflexivity].
  right. right. apply in_or_app. right. simpl. auto.
Qed.

(** C5 fails on the code: a stream whose only file is an empty minified
    file makes [report] throw, whatever the gzip size of the empty
    contents is, whatever [_.has] answers and whichever release of lodash
    is installed. *)
Theorem C5_empty_minified_file_throws
  (has : list (string * FileEntry) -> string -> bool)
  (gzipSizeSync : list Byte.byte -> N) (v : lodash) :
  (st ← gather has gzipSizeSync defaultOptions
          {| relative := "empty.min.js"; contents := Some [] |}
          initialState;
   report v st)
  = Throw TypeError.
Proof.
  unfold gather, record. simpl.
  change (normalizeFilename defaultOptions "empty.min.js") with "empty.js".
  destruct (has [] "empty.js"); reflexivity.
Qed.

(** The same defect, in the function the claim names. *)
Lemma determine_empty_minified_throws (gz : N) :
  determineCompressionSizeRatio
    {| fe_name := "empty.js"; fe_unminified := None;
       fe_minified := Some (mkVariant 0 gz);
       fe_minificationSizeRatio := None; fe_compressionSizeRatio := None |}
  = Throw TypeError.
Proof. reflexivity. Qed.

(** A division by zero that is not rendered as the placeholder: an empty
    unminified file whose gzip size is not zero gets the quotient
    [Infinity], which is truthy and so is printed as a percentage. *)
Lemma empty_unminified_file_prints_Infinity (v : lodash) :
  exists (st' : State) (out : list line),
    (st ← gather has_dotted (fun _ => 20) defaultOptions
            {| relative := "empty.css"; contents := Some [] |}
            initialState;
     report v st) = Ok (st', out) /\
    In (LTable fileColumns
          [[CText "empty.css"; CDash; CDash; CBytes 20; CDash; CDash;
            CPercent Infinity; CBytes 20]]) out.
Proof.
  destruct v; (eexists _, _; split; [vm_compute; reflexivity|]);
    simpl; auto 10.
Qed.

(** ** Extension aggregation *)

Section Aggregation.

Implicit Types (exts : gmap string Extension) (data : FileEntry).

Lemma fold_file_eq data (entry : Extension) :
  fold_file data (size_or_0 (fe_unminified data)) (size_or_0 (fe_minified data))
            entry
  = gz ← best_gzip data;
    Ok (accumulate (size_or_0 (fe_unminified data))
                   (size_or_0 (fe_minified data)) gz entry).
Proof. reflexivity. Qed.

Lemma determine_best_gzip data data' :
  determineCompressionSizeRatio data = Ok data' ->
  exists gz : N, best_gzip data' = Ok gz.
Proof.
  intros H. destruct (determine_keeps_variants _ _ H) as (_ & Hu & Hm).
  unfold best_gzip, gzipSize_of, get_variant. rewrite Hu, Hm.
  revert H. unfold determineCompressionSizeRatio, gzipSize_of, get_variant.
  destruct (truthy (size_or_0 (fe_minified data)));
    [destruct (fe_minified data) | destruct (fe_unminified data)];
    simpl; eauto; discriminate.
Qed.

Lemma fold_into_present data exts (extension : string) (entry : Extension) (gz : N) :
  best_gzip data = Ok gz ->
  exts !! extension = Some entry ->
  fold_into data (size_or_0 (fe_unminified data)) (size_or_0 (fe_minified data))
            extension exts
  = Ok (alter (accumulate (size_or_0 (fe_unminified data))
                          (size_or_0 (fe_minified data)) gz)
              extension exts).
Proof.
  intros Hgz Hget. unfold fold_into. rewrite Hget, fold_file_eq, Hgz. simpl.
  f_equal. apply map_eq. intros k.
  rewrite lookup_alter, lookup_insert.
  case_decide; subst; [now rewrite Hget | reflexivity].
Qed.

Lemma ensure_bucket_lookup exts (extension k : string) :
  ensure_bucket extension exts !! k =
  match exts !! k with
  | Some e => Some e
  | None => if decide (k = extension) then Some emptyExtension else None
  end.
Proof.
  unfold ensure_bucket. destruct (exts !! extension) as [e|] eqn:E.
  - destruct (exts !! k) eqn:Ek; [reflexivity|].
    case_decide; [congruence | reflexivity].
  - rewrite lookup_insert. case_decide; subst.
    + rewrite E. now rewrite decide_True.
    + destruct (exts !! k); [reflexivity|]. now rewrite decide_False.
Qed.

(** The outer loop body, in closed form: it succeeds as soon as the ratio
    computation does and the wildcard bucket exists. *)
Lemma process_file_eq (name : string) data data' exts (w : Extension) :
  exts !! "*" = Some w ->
  determineCompressionSizeRatio data = Ok data' ->
  exists gz : N,
    best_gzip data' = Ok gz /\
    process_file name data exts =
    Ok (data',
        alter (accumulate (size_or_0 (fe_unminified data'))
                          (size_or_0 (fe_minified data')) gz)
              (extension_of name)
              (alter (accumulate (size_or_0 (fe_unminified data'))
                                 (size_or_0 (fe_minified data')) gz)
                     "*"
                     (ensure_bucket (extension_of name) exts))).
Proof.
  intros Hw Hdet. destruct (determine_best_gzip _ _ Hdet) as [gz Hgz].
  exists gz. split; [exact Hgz|].
  unfold process_file. rewrite Hdet. simpl.
  fold (ensure_bucket (extension_of name) exts).
  set (exts1 := ensure_bucket (extension_of name) exts).
  assert (H1 : exts1 !! "*" = Some w).
  { unfold exts1. now rewrite ensure_bucket_lookup, Hw. }
  rewrite (fold_into_present _ _ _ _ _ Hgz H1). simpl.
  set (f := accumulate _ _ gz).
  assert (H2 : is_Some (alter f "*" exts1 !! extension_of name)).
  { rewrite lookup_alter. case_decide as Heq.
    - rewrite H1. simpl. eauto.
    - unfold exts1. rewrite ensure_bucket_lookup.
      destruct (exts !! extension_of name); [eauto|].
      rewrite decide_True by reflexivity. eauto. }
  destruct H2 as [e2 H2].
  now rewrite (fold_into_present _ _ _ _ _ Hgz H2).
Qed.

Lemma process_file_Ok_inv (name : string) data data' exts exts' :
  process_file name data exts = Ok (data', exts') ->
  determineCompressionSizeRatio data = Ok data'.
Proof.
  unfold process_file.
  destruct (determineCompressionSizeRatio data) as [d|];
    unfold mbind at 1, outcome_bind at 1; [|discriminate].
  set (r := each _ _ _). destruct r; simpl; [|discriminate].
  now intros [= -> _].
Qed.

End Aggregation.

(** ** The wildcard bucket against the real buckets *)

Section WildcardSum.

Implicit Types (exts : gmap string Extension) (f : Extension -> N).

Lemma summed_fields_additive : Forall additive summed_fields.
Proof.
  unfold summed_fields.
  repeat constructor; intros u m gz; simpl;
    try (eexists; intros e; reflexivity);
    match goal with
    | |- context [if ?c then _ else _] =>
        destruct c; [exists 1 | exists 0]; intros e; lia
    end.
Qed.











End WildcardSum.

(** C3 fails on the code: a file whose extension is the wildcard key
    itself, here [a.*] of 10 bytes, is folded twice into the wildcard bucket
    and into no real bucket, so the wildcard totals are not the sums over
    the real buckets. *)
Theorem C3_wildcard_extension_breaks_sum :
  exists st' : State,
    postProcessFiles
      {| files := record_result defaultOptions "a.*" (mkVariant 10 20) [];
         extensions := initialExtensions |} = Ok st' /\
    (s_src ∘ e_size) <$> extensions st' !! "*" = Some 20 /\
    (c_unminified ∘ e_count) <$> extensions st' !! "*" = Some 2 /\
    sum_real (s_src ∘ e_size) (extensions st') = 0 /\
    sum_real (c_unminified ∘ e_count) (extensions st') = 0 /\
    ~ wildcard_is_sum (extensions st').
Proof.
  eexists. split; [vm_compute; reflexivity|].
  split; [reflexivity|]. split; [reflexivity|].
  split; [reflexivity|]. split; [reflexivity|].
  intros (w & Hw & Hall).
  apply Forall_cons in Hall as [Hsrc _].
  vm_compute in Hw. injection Hw as <-.
  vm_compute in Hsrc. discriminate.
Qed.

(** ** File classification *)

(** Where every variant that is there has a size other than zero, one
    pass of the inner loop adds one to exactly the counter of the class of
    the file. *)
Lemma accumulate_counts_nonempty (data : FileEntry) (gz : N) (entry : Extension) :
  (forall v, fe_unminified data = Some v -> v_size v <> 0) ->
  (forall v, fe_minified data = Some v -> v_size v <> 0) ->
  e_count (accumulate (size_or_0 (fe_unminified data))
                      (size_or_0 (fe_minified data)) gz entry)
  = match fe_unminified data, fe_minified data with
    | Some _, Some _ =>
        {| c_minified := c_minified (e_count entry);
           c_unminified := c_unminified (e_count entry);
           c_both := c_both (e_count entry) + 1 |}
    | Some _, None =>
        {| c_minified := c_minified (e_count entry);
           c_unminified := c_unminified (e_count entry) + 1;
           c_both := c_both (e_count entry) |}
    | None, Some _ =>
        {| c_minified := c_minified (e_count entry) + 1;
           c_unminified := c_unminified (e_count entry);
           c_both := c_both (e_count entry) |}
    | None, None => e_count entry
    end.
Proof.
  intros Hu Hm. unfold accumulate, truthy. simpl.
  destruct (fe_unminified data) as [a|], (fe_minified data) as [b|]; simpl;
    try (specialize (Hu a eq_refl); apply N.eqb_neq in Hu; rewrite Hu);
    try (specialize (Hm b eq_refl); apply N.eqb_neq in Hm; rewrite Hm);
    simpl; try reflexivity.
  now destruct (e_count entry).
Qed.

(** In general the classes are told apart by the sizes: a variant of size
    zero counts as missing, and a file all of whose variants are empty is
    counted in no class. *)
Lemma accumulate_counts (u m gz : N) (entry : Extension) :
  sum_count (e_count (accumulate u m gz entry)) =
  sum_count (e_count entry) + (if truthy u || truthy m then 1 else 0).
Proof.
  unfold accumulate, sum_count, truthy. simpl.
  destruct (N.eqb u 0), (N.eqb m 0); simpl; lia.
Qed.

(** C7 fails on the code: an empty unminified file without a minified
    counterpart is folded into its bucket and into the wildcard bucket
    without any of the three counters being incremented. *)
Theorem C7_empty_file_not_counted :
  exists st' : State,
    postProcessFiles
      {| files := record_result defaultOptions "empty.css" (mkVariant 0 20) [];
         extensions := initialExtensions |} = Ok st' /\
    e_count <$> extensions st' !! "css"
      = Some {| c_minified := 0; c_unminified := 0; c_both := 0 |} /\
    e_count <$> extensions st' !! "*"
      = Some {| c_minified := 0; c_unminified := 0; c_both := 0 |} /\
    (s_gzip ∘ e_size) <$> extensions st' !! "css" = Some 20.
Proof.
  eexists. split; [vm_compute; reflexivity|].
  repeat split; reflexivity.
Qed.

(** ** Running the aggregation again *)

Section Rerun.

Implicit Types (exts A B : gmap string Extension) (f : Extension -> N).

Lemma jsdiv_double (a b : N) : jsdiv (a + a) (b + b) = jsdiv a b.
Proof.
  destruct b as [|p]; simpl.
  - destruct a; reflexivity.
  - f_equal. apply Qred_complete. unfold Qeq. simpl. lia.
Qed.

(** Computing the ratios of an entry again changes nothing. *)
Lemma determine_idempotent (data data' : FileEntry) :
  determineCompressionSizeRatio data = Ok data' ->
  determineCompressionSizeRatio data' = Ok data'.
Proof.
  destruct data as [name [a|] [b|] r1 r2];
    unfold determineCompressionSizeRatio, gzipSize_of, get_variant, truthy;
    simpl;
    try destruct (N.eqb (v_size a) 0) eqn:Ea;
    try destruct (N.eqb (v_size b) 0) eqn:Eb;
    simpl; try discriminate; intros [= <-]; simpl;
    rewrite ?Ea, ?Eb; reflexivity.
Qed.

Lemma additive_step f (u m gz : N) (e : Extension) :
  additive f ->
  f (accumulate u m gz e) = f e + f (accumulate u m gz emptyExtension).
Proof.
  intros [H0 Hadd]. destruct (Hadd u m gz) as [d Hd].
  rewrite (Hd e), (Hd emptyExtension), H0. lia.
Qed.

(** One file adds its contribution to the buckets, key by key. *)
Lemma step_field f exts (extension k : string) (u m gz : N) (w : Extension) :
  additive f -> exts !! "*" = Some w ->
  field_at f
    (alter (accumulate u m gz) extension
       (alter (accumulate u m gz) "*" (ensure_bucket extension exts))) k
  = field_at f exts k + contribution f u m gz extension k.
Proof.
  intros Hadd Hw. pose proof Hadd as [H0 _].
  unfold field_at, contribution.
  set (acc := accumulate u m gz).
  assert (Hacc : forall e, f (acc e) = f e + f (acc emptyExtension))
    by (intros e; now apply additive_step).
  destruct (decide (k = extension)) as [->|Hk2].
  - rewrite lookup_alter_eq.
    destruct (decide (extension = "*")) as [->|Hk1].
    + rewrite lookup_alter_eq, ensure_bucket_lookup, Hw. simpl.
      rewrite (Hacc (acc w)), (Hacc w). lia.
    + rewrite lookup_alter_ne by congruence. rewrite ensure_bucket_lookup.
      destruct (exts !! extension) as [e|]; simpl.
      * rewrite (Hacc e). lia.
      * rewrite decide_True by reflexivity. simpl. rewrite H0. lia.
  - rewrite lookup_alter_ne by congruence.
    destruct (decide (k = "*")) as [->|Hk1].
    + rewrite lookup_alter_eq, ensure_bucket_lookup, Hw. simpl.
      rewrite (Hacc w). lia.
    + rewrite lookup_alter_ne by congruence. rewrite ensure_bucket_lookup.
      destruct (exts !! k) as [e|]; simpl; [lia|].
      rewrite decide_False by exact Hk2. simpl. lia.
Qed.

Lemma step_keys exts (extension k : string) (g : Extension -> Extension) :
  is_Some (alter g extension (alter g "*" (ensure_bucket extension exts)) !! k)
  <-> is_Some (exts !! k) \/ k = extension.
Proof.
  rewrite !lookup_alter_is_Some, ensure_bucket_lookup.
  destruct (exts !! k) as [e|]; [split; eauto|].
  case_decide as Hk; split.
  - intros _. right. exact Hk.
  - eauto.
  - intros [x Hx]. discriminate.
  - intros [[x Hx]|Hx]; [discriminate | contradiction].
Qed.

Lemma forOwn_files_keys_mono (fs fs' : list (string * FileEntry)) A A' :
  is_Some (A !! "*") ->
  forOwn_files fs A = Ok (fs', A') ->
  forall k : string, is_Some (A !! k) -> is_Some (A' !! k).
Proof.
  revert fs' A A'. induction fs as [|[name data] fs IH];
    intros fs' A A' [w Hw]; simpl.
  - now intros [= <- <-].
  - destruct (process_file name data A) as [[data' A1]|] eqn:E1;
      simpl; [|discriminate].
    destruct (forOwn_files fs A1) as [[fs1 A2]|] eqn:E2;
      simpl; [|discriminate].
    intros [= <- <-] k Hk.
    pose proof (process_file_Ok_inv _ _ _ _ _ E1) as Hdet.
    destruct (process_file_eq name _ _ _ _ Hw Hdet) as (gz & _ & Heq).
    rewrite Heq in E1. injection E1 as <-.
    eapply IH; [| exact E2 |]; apply step_keys; left; eauto.
Qed.

(** The second run, started on the buckets [B], follows the first one,
    started on [A]: it succeeds, creates no bucket the first run did not
    create, and adds to every field of every bucket what the first run
    added. *)
Lemma rerun_simulation (fs fs' : list (string * FileEntry)) A A' B :
  forOwn_files fs A = Ok (fs', A') ->
  is_Some (A !! "*") ->
  (forall k : string, is_Some (A !! k) -> is_Some (B !! k)) ->
  exists B',
    forOwn_files fs' B = Ok (fs', B') /\
    (forall k : string,
       is_Some (B' !! k) <-> is_Some (B !! k) \/ is_Some (A' !! k)) /\
    (forall f (k : string), additive f ->
       field_at f B' k + field_at f A k = field_at f B k + field_at f A' k).
Proof.
  revert fs' A A' B. induction fs as [|[name data] fs IH];
    intros fs' A A' B Hok HwA Hsub; simpl in Hok.
  - injection Hok as <- <-. exists B. split; [reflexivity|].
    split; [intros k; split; [eauto | intros [H|H]; eauto] | intros; lia].
  - destruct (process_file name data A) as [[data' A1]|] eqn:E1;
      simpl in Hok; [|discriminate].
    destruct (forOwn_files fs A1) as [[fs1 A2]|] eqn:E2;
      simpl in Hok; [|discriminate].
    injection Hok as <- <-.
    pose proof (process_file_Ok_inv _ _ _ _ _ E1) as Hdet.
    pose proof (determine_idempotent _ _ Hdet) as Hdet'.
    destruct HwA as [w Hw]. destruct (Hsub "*" (ex_intro _ w Hw)) as [wb Hwb].
    destruct (process_file_eq name _ _ _ _ Hw Hdet) as (gz & Hgz & HeqA).
    destruct (process_file_eq name _ _ _ _ Hwb Hdet') as (gz' & Hgz' & HeqB).
    assert (gz' = gz) as -> by congruence.
    rewrite HeqA in E1. injection E1 as <-.
    set (acc := accumulate _ _ gz) in *.
    set (A1 := alter acc (extension_of name)
                 (alter acc "*" (ensure_bucket (extension_of name) A))) in *.
    set (B1 := alter acc (extension_of name)
                 (alter acc "*" (ensure_bucket (extension_of name) B))) in *.
    assert (HwA1 : is_Some (A1 !! "*")) by (apply step_keys; left; eauto).
    assert (Hsub1 : forall k, is_Some (A1 !! k) -> is_Some (B1 !! k)).
    { intros k Hk. apply step_keys. apply step_keys in Hk as [Hk|Hk]; auto. }
    destruct (IH _ _ _ B1 E2 HwA1 Hsub1) as (B' & HforB & Hkeys & Hfields).
    exists B'. split; [|split].
    + simpl. rewrite HeqB. simpl. fold acc B1. rewrite HforB. reflexivity.
    + intros k. rewrite Hkeys. unfold B1. rewrite step_keys.
      split; [intros [[H|H]|H]; auto | intros [H|H]; auto].
      right. eapply forOwn_files_keys_mono; [exact HwA1 | exact E2 |].
      apply step_keys. right. exact H.
    + intros f k Hadd. specialize (Hfields f k Hadd).
      unfold A1, B1, acc in Hfields.
      rewrite (step_field f A _ k _ _ gz w Hadd Hw) in Hfields.
      rewrite (step_field f B _ k _ _ gz wb Hadd Hwb) in Hfields.
      lia.
Qed.

Lemma summed_field_additive f : f ∈ summed_fields -> additive f.
Proof.
  intros Hf. pose proof summed_fields_additive as H.
  rewrite Forall_forall in H. now apply H.
Qed.

Lemma summed_field_ignores_ratios (v : lodash) f (e : Extension) :
  f ∈ summed_fields -> f (extension_ratios v e) = f e.
Proof.
  intros Hf.
  assert (H : Forall (fun f => forall e, f (extension_ratios v e) = f e)
                summed_fields) by (unfold summed_fields; repeat constructor).
  rewrite Forall_forall in H. now apply H.
Qed.

(** Doubling every counter and every size of a bucket leaves its ratios
    as they are. *)
Lemma ratios_of_doubled (v : lodash) (a b : Extension) :
  (forall f, f ∈ summed_fields -> f b = f a + f a) ->
  bucket_ratios (extension_ratios v b) = bucket_ratios (extension_ratios v a).
Proof.
  intros H.
  assert (Hin : forall f, In f summed_fields -> f b = f a + f a)
    by (intros f Hf; apply H, list_elem_of_In, Hf).
  unfold summed_fields in Hin. simpl in Hin.
  pose proof (Hin (fun e => s_src (e_size e)) ltac:(tauto)) as Hsrc.
  pose proof (Hin (fun e => s_dist (e_size e)) ltac:(tauto)) as Hdist.
  pose proof (Hin (fun e => s_gzip (e_size e)) ltac:(tauto)) as Hgzip.
  pose proof (Hin (fun e => c_minified (e_count e)) ltac:(tauto)) as Hcm.
  pose proof (Hin (fun e => c_unminified (e_count e)) ltac:(tauto)) as Hcu.
  pose proof (Hin (fun e => c_both (e_count e)) ltac:(tauto)) as Hcb.
  simpl in *. unfold bucket_ratios, extension_ratios. simpl.
  rewrite Hsrc, Hdist, Hgzip, Hcm, Hcb. rewrite !jsdiv_double.
  assert (Hcount :
    jsdiv (c_minified (e_count a) + c_minified (e_count a)
           + (c_both (e_count a) + c_both (e_count a)))
          (sum_object v (e_count b))
    = jsdiv (c_minified (e_count a) + c_both (e_count a))
            (sum_object v (e_count a))).
  { replace (c_minified (e_count a) + c_minified (e_count a)
             + (c_both (e_count a) + c_both (e_count a)))
      with ((c_minified (e_count a) + c_both (e_count a))
            + (c_minified (e_count a) + c_both (e_count a))) by lia.
    destruct v; unfold sum_object, sum_count.
    - rewrite Hcm, Hcu, Hcb.
      replace (c_minified (e_count a) + c_minified (e_count a)
               + (c_unminified (e_count a) + c_unminified (e_count a))
               + (c_both (e_count a) + c_both (e_count a)))
        with ((c_minified (e_count a) + c_unminified (e_count a)
               + c_both (e_count a))
              + (c_minified (e_count a) + c_unminified (e_count a)
                 + c_both (e_count a))) by lia.
      apply jsdiv_double.
    - apply (jsdiv_double _ 0). }
  now rewrite Hcount.
Qed.

End Rerun.

(** Aggregation succeeds on every set of readable entries. *)
Lemma forOwn_files_succeeds (fs : list (string * FileEntry))
  (exts : gmap string Extension) :
  is_Some (exts !! "*") ->
  Forall (fun kv => readable (snd kv)) fs ->
  exists r, forOwn_files fs exts = Ok r.
Proof.
  revert exts. induction fs as [|[name data] fs IH]; intros exts [w Hw] Hall; simpl.
  - eauto.
  - apply Forall_cons in Hall as [Hr Hall]. simpl in Hr.
    destruct (determineCompressionSizeRatio data) as [data'|[]] eqn:Hdet.
    + destruct (process_file_eq name _ _ _ _ Hw Hdet) as (gz & _ & Heq).
      rewrite Heq. simpl.
      edestruct (IH (alter (accumulate (size_or_0 (fe_unminified data'))
                                       (size_or_0 (fe_minified data')) gz)
                           (extension_of name)
                           (alter (accumulate (size_or_0 (fe_unminified data'))
                                              (size_or_0 (fe_minified data')) gz)
                                  "*" (ensure_bucket (extension_of name) exts))))
        as [r Hrest]; [apply step_keys; left; eauto | exact Hall |].
      rewrite Hrest. simpl. eauto.
    + apply determine_throws_iff in Hdet as [Hu Hm].
      destruct Hr as [Hr|Hr]; [rewrite Hu in Hr; discriminate | contradiction].
Qed.

Lemma aggregate_succeeds (v : lodash) (fs : list (string * FileEntry)) :
  Forall (fun kv => readable (snd kv)) fs ->
  exists st1 : State,
    aggregate v {| files := fs; extensions := initialExtensions |} = Ok st1.
Proof.
  intros Hall. unfold aggregate, postProcessFiles. simpl.
  destruct (forOwn_files_succeeds fs initialExtensions) as [r Hr];
    [eexists; reflexivity | exact Hall |].
  rewrite Hr. simpl. eauto.
Qed.

(** C8: for every set of ingested entries on which aggregation and ratio
    computation, run from the initial buckets, return, running them a
    second time returns too, and every derived ratio (the two ratios of
    every file entry, the three ratios of every bucket, for the same
    buckets) is what it was after the first run. *)
Theorem C8_rerun_same_ratios (v : lodash) (fs : list (string * FileEntry))
  (st1 : State) :
  aggregate v {| files := fs; extensions := initialExtensions |} = Ok st1 ->
  exists st2 : State,
    aggregate v st1 = Ok st2 /\
    derived_ratios st2 = derived_ratios st1.
Proof.
  unfold aggregate, postProcessFiles. simpl.
  destruct (forOwn_files fs initialExtensions) as [[fs' A']|] eqn:E;
    simpl; [|discriminate].
  intros [= <-]. unfold postProcessExtensions at 1. simpl.
  assert (HwA : is_Some (initialExtensions !! "*")) by (eexists; reflexivity).
  assert (HwA' : is_Some (A' !! "*"))
    by (eapply forOwn_files_keys_mono; [exact HwA | exact E | exact HwA]).
  destruct (rerun_simulation fs fs' initialExtensions A'
              (extension_ratios v <$> A') E HwA) as (B' & HforB & Hkeys & Hfields).
  { intros k [e He]. rewrite lookup_fmap.
    destruct (forOwn_files_keys_mono _ _ _ _ HwA E k (ex_intro _ e He)) as [a Ha].
    rewrite Ha. simpl. eauto. }
  rewrite HforB. simpl. eexists. split; [reflexivity|].
  unfold derived_ratios, postProcessExtensions. simpl. f_equal.
  apply map_eq. intros k. rewrite !lookup_fmap.
  specialize (Hkeys k). rewrite lookup_fmap in Hkeys.
  destruct (A' !! k) as [a|] eqn:Ea; simpl in *.
  - destruct (B' !! k) as [b|] eqn:Eb; simpl.
    + f_equal. apply ratios_of_doubled. intros f Hf.
      specialize (Hfields f k (summed_field_additive f Hf)).
      unfold field_at in Hfields. rewrite Eb, Ea, lookup_fmap, Ea in Hfields.
      simpl in Hfields. rewrite (summed_field_ignores_ratios v f a Hf) in Hfields.
      assert (H0 : f (default emptyExtension (initialExtensions !! k)) = 0).
      { destruct (summed_field_additive f Hf) as [H0 _].
        unfold initialExtensions.
        destruct (decide (k = "*")) as [->|Hk].
        - rewrite lookup_singleton_eq. exact H0.
        - rewrite lookup_singleton_ne by congruence. exact H0. }
      rewrite H0 in Hfields. lia.
    + exfalso. destruct (proj2 Hkeys) as [x Hx]; [left; eauto | discriminate].
  - destruct (B' !! k) as [b|] eqn:Eb; simpl; [|reflexivity].
    exfalso. destruct (proj1 Hkeys) as [[x Hx]|[x Hx]]; eauto; discriminate.
Qed.

Lemma C8_witness :
  let fs :=
    record_result defaultOptions "lib.js" (mkVariant 1000 300)
      (record_result defaultOptions "app.min.css" (mkVariant 400 90)
         (record_result defaultOptions "app.css" (mkVariant 500 100) [])) in
  let st1 :=
    match aggregate Lodash3 {| files := fs; extensions := initialExtensions |} with
    | Ok st => st
    | Throw _ => initialState
    end in
  aggregate Lodash3 {| files := fs; extensions := initialExtensions |} = Ok st1 /\
  exists st2 : State,
    aggregate Lodash3 st1 = Ok st2 /\
    derived_ratios st2 = derived_ratios st1.
Proof.
  intros fs st1.
  assert (H : aggregate Lodash3 {| files := fs; extensions := initialExtensions |} = Ok st1)
    by (vm_compute; reflexivity).
  split; [exact H|].
  exact (C8_rerun_same_ratios Lodash3 fs st1 H).
Defined.

(** ** The scenarios of the specification *)

(** [app.css] (500 bytes, 100 compressed) and [app.min.css] (400 bytes, 90
    compressed) make one entry, with ratios [0.8] and [0.18], counted once
    under [both] in the bucket [css]. *)
Example scenario_pair :
  let fs :=
    record_result defaultOptions "app.min.css" (mkVariant 400 90)
      (record_result defaultOptions "app.css" (mkVariant 500 100) []) in
  exists st' : State,
    postProcessFiles {| files := fs; extensions := initialExtensions |} = Ok st' /\
    file_ratios <$> files_get "app.css" (files st')
      = Some (Some (Fin (4 # 5)), Some (Fin (9 # 50))) /\
    length (files st') = 1%nat /\
    (fun e => (c_both (e_count e), s_src (e_size e), s_dist (e_size e),
               s_gzip (e_size e))) <$> extensions st' !! "css"
      = Some (1, 500, 400, 90).
Proof.
  eexists. split; [vm_compute; reflexivity|]. repeat split; reflexivity.
Qed.

(** [lib.js] alone (1000 bytes, 300 compressed) is reported as lacking a
    minified form, has no minification ratio and is counted under
    [unminified] in the bucket [js]. *)
Example scenario_unminified_only (v : lodash) :
  let fs := record_result defaultOptions "lib.js" (mkVariant 1000 300) [] in
  exists (st' : State) (out : list line),
    report v {| files := fs; extensions := initialExtensions |} = Ok (st', out) /\
    In (LMissingFile "lib.js") out /\
    fe_minificationSizeRatio <$> files_get "lib.js" (files st') = Some None /\
    (c_unminified ∘ e_count) <$> extensions st' !! "js" = Some 1.
Proof.
  eexists _, _. split; [vm_compute; reflexivity|].
  split; [simpl; auto 10|]. split; reflexivity.
Qed.

(** * Further properties of the code *)

(** ** The normalizer, for any marker *)

(** X1: a filename in which the marker does not occur is classified as
    unminified and is its own normal form. *)
Theorem X1_normalize_without_marker (options : Options) (filename : string) :
  isMinified options filename = false ->
  normalizeFilename options filename = filename.
Proof. apply regex_remove_no_match. Qed.

Lemma X1_witness : normalizeFilename defaultOptions "lib.js" = "lib.js".
Proof. apply (X1_normalize_without_marker defaultOptions "lib.js"). reflexivity. Defined.

(** X2: a filename in which the marker occurs loses exactly the length of
    the marker by normalization. *)
Theorem X2_normalize_length (options : Options) (filename : string) :
  isMinified options filename = true ->
  (String.length (normalizeFilename options filename)
   + String.length (minifiedName options))%nat
  = String.length filename.
Proof.
  intros H. destruct (regex_remove_leftmost _ _ H) as (pre & post & Hs & Hr & _).
  unfold normalizeFilename. rewrite Hr. rewrite Hs at 1.
  rewrite !string_length_app. lia.
Qed.

Lemma X2_witness :
  (String.length (normalizeFilename defaultOptions "app.min.css")
   + String.length (minifiedName defaultOptions))%nat
  = String.length "app.min.css".
Proof. apply (X2_normalize_length defaultOptions "app.min.css"). reflexivity. Defined.

(** X3: for a marker that is a literal string, the classification agrees
    with the key, a file being minified exactly when normalization changes
    its name, for every filename if and only if the literal is not empty;
    with the empty literal every file is classified as minified while
    normalization changes no name. *)
Theorem X3_classification_agrees_iff_marker_nonempty (options : Options) :
  ((forall filename : string,
      isMinified options filename = true <->
      normalizeFilename options filename <> filename)
   <-> minifiedName options <> EmptyString) /\
  (minifiedName options = EmptyString ->
   forall filename : string,
     isMinified options filename = true /\
     normalizeFilename options filename = filename).
Proof.
  split; [split|].
  - intros H Hempty. specialize (H EmptyString).
    unfold isMinified, normalizeFilename in H. rewrite Hempty in H.
    simpl in H. apply H; reflexivity.
  - intros Hne filename. now apply regex_test_iff_changed.
  - intros Hempty filename. unfold isMinified, normalizeFilename.
    rewrite Hempty. destruct filename; split; reflexivity.
Qed.

Lemma X3_witness :
  isMinified {| minifiedName := EmptyString; verbose := false |} "lib.js" = true /\
  normalizeFilename {| minifiedName := EmptyString; verbose := false |} "lib.js"
  = "lib.js".
Proof.
  apply (proj2 (X3_classification_agrees_iff_marker_nonempty
                  {| minifiedName := EmptyString; verbose := false |})).
  reflexivity.
Defined.

(** ** The recorder *)

(** On a name whose normal form is a key, [record] returns. *)
Lemma record_on_own_key (has : list (string * FileEntry) -> string -> bool)
  (options : Options) (name : string) (data : Variant)
  (fs : list (string * FileEntry)) (e : FileEntry) :
  sees_own_keys has ->
  files_get (normalizeFilename options name) fs = Some e ->
  record has options name data fs
  = Ok (files_set (normalizeFilename options name)
          (set_variant (if isMinified options name then Kminified else Kunminified)
                       data e) fs).
Proof.
  intros Hown Hget. unfold record.
  rewrite (Hown fs _) by now rewrite Hget.
  now rewrite Hget.
Qed.

Lemma record_result_twice (options : Options) (name : string)
  (d1 d2 : Variant) (fs : list (string * FileEntry)) :
  record_result options name d2 (record_result options name d1 fs)
  = record_result options name d2 fs.
Proof.
  unfold record_result. rewrite files_get_set_eq.
  now rewrite set_variant_twice, files_set_twice.
Qed.

Lemma record_result_other_keys (options : Options) (name key : string)
  (data : Variant) (fs : list (string * FileEntry)) :
  key <> normalizeFilename options name ->
  files_get key (record_result options name data fs) = files_get key fs.
Proof.
  intros Hne. unfold record_result. apply files_get_set_ne. congruence.
Qed.

(** X4: a call of [record] that returns has changed the entry at the
    normalized name only: under every other key the entry found is the one
    found before.  (A call that throws has stored nothing.) *)
Theorem X4_record_other_keys (has : list (string * FileEntry) -> string -> bool)
  (options : Options) (name key : string) (data : Variant)
  (fs fs' : list (string * FileEntry)) :
  key <> normalizeFilename options name ->
  record has options name data fs = Ok fs' ->
  files_get key fs' = files_get key fs.
Proof.
  intros Hne. unfold record.
  destruct (has fs (normalizeFilename options name)).
  - destruct (files_get _ fs); [|discriminate]. intros [= <-].
    apply files_get_set_ne. congruence.
  - rewrite files_get_set_eq. intros [= <-].
    rewrite !files_get_set_ne by congruence. reflexivity.
Qed.

Lemma X4_witness :
  exists fs' : list (string * FileEntry),
    record has_dotted defaultOptions "app.min.css" (mkVariant 400 90)
      (record_result defaultOptions "lib.js" (mkVariant 1000 300) []) = Ok fs' /\
    files_get "lib.js" fs'
    = files_get "lib.js"
        (record_result defaultOptions "lib.js" (mkVariant 1000 300) []).
Proof.
  eexists. split; [reflexivity|].
  apply (X4_record_other_keys has_dotted defaultOptions "app.min.css" "lib.js"
           (mkVariant 400 90)).
  - discriminate.
  - reflexivity.
Defined.

(** X5: last write wins: with a [_.has] that finds the own keys,
    recording the same file twice leaves [files] as recording it once with
    the later data does, and throws exactly where the single call throws. *)
Theorem X5_record_last_write_wins
  (has : list (string * FileEntry) -> string -> bool) (options : Options)
  (name : string) (d1 d2 : Variant) (fs : list (string * FileEntry)) :
  sees_own_keys has ->
  (fs1 ← record has options name d1 fs; record has options name d2 fs1)
  = record has options name d2 fs.
Proof.
  intros Hown.
  destruct (record has options name d1 fs) as [fs1|[]] eqn:E1; simpl.
  - apply (record_Ok_result _ _ _ _ _ _ Hown) in E1 as E1'. subst fs1.
    destruct (record has options name d2 fs) as [fs2|[]] eqn:E2.
    + apply (record_Ok_result _ _ _ _ _ _ Hown) in E2 as ->.
      destruct (record_result_entry options name d1 fs) as (e & Hget & _).
      rewrite (record_on_own_key has options name d2 _ e Hown Hget).
      f_equal. rewrite <- (record_result_twice options name d1 d2 fs).
      unfold record_result at 2. now rewrite Hget.
    + apply record_throws_iff in E2.
      assert (Hthrow : record has options name d1 fs = Throw TypeError)
        by now apply record_throws_iff.
      congruence.
  - apply record_throws_iff in E1. symmetry. now apply record_throws_iff.
Qed.

Lemma X5_witness :
  (fs1 ← record has_dotted defaultOptions "app.css" (mkVariant 500 100) [];
   record has_dotted defaultOptions "app.css" (mkVariant 480 95) fs1)
  = record has_dotted defaultOptions "app.css" (mkVariant 480 95) [].
Proof.
  apply (X5_record_last_write_wins has_dotted defaultOptions "app.css"
           (mkVariant 500 100) (mkVariant 480 95) []).
  exact has_dotted_sees_own_keys.
Defined.



(** ** What ingest keeps true of [files] *)

Lemma files_get_elem (name : string) (e : FileEntry)
  (fs : list (string * FileEntry)) :
  files_get name fs = Some e -> (name, e) ∈ fs.
Proof.
  induction fs as [|[k e0] fs IH]; simpl; [discriminate|].
  destruct (String.eqb_spec k name) as [->|Hk].
  - intros [= ->]. left.
  - intros H. right. now apply IH.
Qed.

Lemma files_get_None_keys (name : string) (fs : list (string * FileEntry)) :
  files_get name fs = None <-> name ∉ fst <$> fs.
Proof.
  induction fs as [|[k e0] fs IH]; simpl.
  - split; [intros _; apply not_elem_of_nil | reflexivity].
  - rewrite not_elem_of_cons. destruct (String.eqb_spec k name) as [->|Hk].
    + split; [discriminate | intros [H _]; contradiction].
    + rewrite IH. split; [intros H; split; [congruence | exact H] | tauto].
Qed.

Lemma files_set_keys (name : string) (e : FileEntry)
  (fs : list (string * FileEntry)) :
  fst <$> files_set name e fs =
  match files_get name fs with
  | Some _ => fst <$> fs
  | None => ((fst <$> fs) ++ [name])%list
  end.
Proof.
  induction fs as [|[k e0] fs IH]; [reflexivity|].
  cbn [files_set files_get].
  destruct (String.eqb k name) eqn:E; rewrite !fmap_cons; [reflexivity|].
  rewrite IH. now destruct (files_get name fs).
Qed.

Lemma files_set_Forall_pairs (P : string * FileEntry -> Prop) (name : string)
  (e : FileEntry) (fs : list (string * FileEntry)) :
  Forall P fs -> P (name, e) -> Forall P (files_set name e fs).
Proof.
  intros Hall He. induction fs as [|[k e0] fs IH]; simpl.
  - repeat constructor. exact He.
  - apply Forall_cons in Hall as [H0 Hall].
    destruct (String.eqb_spec k name) as [->|Hk]; constructor; auto.
Qed.

Lemma files_set_keeps_ingested (name : string) (e : FileEntry)
  (fs : list (string * FileEntry)) :
  ingested_entry (name, e) ->
  Forall ingested_entry fs -> NoDup (fst <$> fs) ->
  Forall ingested_entry (files_set name e fs) /\
  NoDup (fst <$> files_set name e fs).
Proof.
  intros He Hall Hnd. split.
  - now apply files_set_Forall_pairs.
  - rewrite files_set_keys. destruct (files_get name fs) eqn:E; [exact Hnd|].
    apply NoDup_app. split; [exact Hnd|]. split.
    + intros x Hx Hin. apply list_elem_of_singleton in Hin as ->.
      now apply files_get_None_keys in E.
    + apply NoDup_singleton.
Qed.

(** The shape of [files] after a call of [record] that returns. *)
Lemma record_Ok_shape (has : list (string * FileEntry) -> string -> bool)
  (options : Options) (name : string) (data : Variant)
  (fs fs' : list (string * FileEntry)) :
  record has options name data fs = Ok fs' ->
  exists entry : FileEntry,
    fs' = files_set (normalizeFilename options name)
            (set_variant (if isMinified options name then Kminified
                          else Kunminified) data entry) fs /\
    (files_get (normalizeFilename options name) fs = Some entry \/
     entry = new_entry (normalizeFilename options name)).
Proof.
  unfold record. destruct (has fs (normalizeFilename options name)).
  - destruct (files_get _ fs) as [e|] eqn:E; [|discriminate].
    intros [= <-]. exists e. auto.
  - rewrite files_get_set_eq, files_set_twice. intros [= <-].
    eexists. split; [reflexivity | now right].
Qed.

Lemma record_keeps_ingested (has : list (string * FileEntry) -> string -> bool)
  (options : Options) (name : string) (data : Variant)
  (fs fs' : list (string * FileEntry)) :
  record has options name data fs = Ok fs' ->
  Forall ingested_entry fs -> NoDup (fst <$> fs) ->
  Forall ingested_entry fs' /\ NoDup (fst <$> fs').
Proof.
  intros Hok Hall Hnd.
  destruct (record_Ok_shape _ _ _ _ _ _ Hok) as (entry & -> & Hentry).
  apply files_set_keeps_ingested; [|exact Hall | exact Hnd].
  destruct Hentry as [Hget| ->].
  - apply files_get_elem in Hget. rewrite Forall_forall in Hall.
    destruct (Hall _ Hget) as (Hn & Hv & Hr1 & Hr2). simpl in *.
    unfold ingested_entry.
    destruct (isMinified options name); simpl; repeat split; auto.
    now rewrite orb_true_r.
  - unfold ingested_entry.
    destruct (isMinified options name); simpl; repeat split; auto.
Qed.

(** X7: whatever the stream delivers and whatever [_.has] answers, in the
    state left behind at the end of the stream, or at the file on which
    [gather] throws, every entry of [files] carries its key as its name,
    holds at least one variant and has no ratio yet, no key occurs twice,
    and [extensions] is not touched. *)
Theorem X7_ingest_invariant (has : list (string * FileEntry) -> string -> bool)
  (gzipSizeSync : list Byte.byte -> N)
  (options : Options) (stream : list Vinyl) (st : State) :
  Forall ingested_entry (files st) ->
  NoDup (fst <$> files st) ->
  let st' := fst (gather_all has gzipSizeSync options stream st) in
  Forall ingested_entry (files st') /\
  NoDup (fst <$> files st') /\
  extensions st' = extensions st.
Proof.
  revert st. induction stream as [|file stream IH]; intros st Hall Hnd; simpl.
  - auto.
  - destruct (gather has gzipSizeSync options file st) as [st1|e] eqn:E;
      [|simpl; auto].
    assert (H1 : Forall ingested_entry (files st1) /\ NoDup (fst <$> files st1)
                 /\ extensions st1 = extensions st).
    { revert E. unfold gather. destruct (contents file) as [buf|].
      - destruct (record has options (relative file) _ (files st)) as [fs'|]
          eqn:Er; simpl; [|discriminate].
        intros [= <-]. simpl.
        destruct (record_keeps_ingested _ _ _ _ _ _ Er Hall Hnd) as [Ha Hb].
        auto.
      - intros [= <-]. auto. }
    destruct H1 as (Ha & Hb & Hc).
    destruct (IH st1 Ha Hb) as (Ha' & Hb' & Hc').
    repeat split; [exact Ha' | exact Hb' | congruence].
Qed.

Lemma X7_witness :
  let st' :=
    fst (gather_all has_dotted (fun _ => 20) defaultOptions
           [{| relative := "app.css"; contents := Some [] |};
            {| relative := "skipped.css"; contents := None |};
            {| relative := "app.min.css"; contents := Some [] |}]
           initialState) in
  Forall ingested_entry (files st') /\
  NoDup (fst <$> files st') /\
  extensions st' = extensions initialState.
Proof.
  apply (X7_ingest_invariant has_dotted (fun _ => 20) defaultOptions _
           initialState).
  - constructor.
  - constructor.
Defined.

(** ** The extension of a name *)

Lemma lower_ascii_dot (c : ascii) :
  Ascii.eqb (lower_ascii c) "."%char = Ascii.eqb c "."%char.
Proof. destruct c as [[] [] [] [] [] [] [] []]; vm_compute; reflexivity. Qed.

Lemma lower_ascii_idempotent (c : ascii) :
  lower_ascii (lower_ascii c) = lower_ascii c.
Proof. destruct c as [[] [] [] [] [] [] [] []]; vm_compute; reflexivity. Qed.

Lemma toLowerCase_idempotent (s : string) :
  toLowerCase (toLowerCase s) = toLowerCase s.
Proof.
  induction s as [|c s IH]; simpl; [reflexivity|].
  now rewrite lower_ascii_idempotent, IH.
Qed.

Lemma has_dot_toLowerCase (s : string) : has_dot (toLowerCase s) = has_dot s.
Proof.
  induction s as [|c s IH]; simpl; [reflexivity|].
  now rewrite lower_ascii_dot, IH.
Qed.

Lemma split_dot_nonempty (s : string) : split_dot s <> [].
Proof.
  induction s as [|c s IH]; simpl; [discriminate|].
  destruct (Ascii.eqb c "."); [discriminate|].
  destruct (split_dot s); discriminate.
Qed.

Lemma split_dot_toLowerCase (s : string) :
  split_dot (toLowerCase s) = List.map toLowerCase (split_dot s).
Proof.
  induction s as [|c s IH]; simpl; [reflexivity|].
  rewrite lower_ascii_dot. destruct (Ascii.eqb c "."); simpl.
  - now rewrite IH.
  - rewrite IH. pose proof (split_dot_nonempty s) as Hne.
    destruct (split_dot s); [contradiction | reflexivity].
Qed.

Lemma last_map_nonempty {A B : Type} (f : A -> B) (l : list A) (d : A) (d' : B) :
  l <> [] -> List.last (List.map f l) d' = f (List.last l d).
Proof.
  induction l as [|a l IH]; [contradiction|]. intros _.
  destruct l as [|b l]; [reflexivity|].
  change (List.last (List.map f (b :: l)) d' = f (List.last (b :: l) d)).
  apply IH. discriminate.
Qed.

Lemma last_app_nonempty {A : Type} (l1 l2 : list A) (d : A) :
  l2 <> [] -> List.last (l1 ++ l2)%list d = List.last l2 d.
Proof.
  intros Hne. induction l1 as [|a l1 IH]; [reflexivity|].
  simpl. destruct (l1 ++ l2)%list eqn:E; [|exact IH].
  apply app_eq_nil in E as [_ ->]. contradiction.
Qed.

Lemma split_dot_no_dot (s : string) : has_dot s = false -> split_dot s = [s].
Proof.
  induction s as [|c s IH]; simpl; [reflexivity|].
  destruct (Ascii.eqb c "."); simpl; [discriminate|].
  intros H. now rewrite (IH H).
Qed.

(** Splitting distributes over a dot. *)
Lemma split_dot_app (pre post : string) :
  split_dot (pre ++ "." ++ post)%string = (split_dot pre ++ split_dot post)%list.
Proof.
  induction pre as [|c pre IH].
  - reflexivity.
  - change (split_dot (String c (pre ++ "." ++ post)%string)
            = (split_dot (String c pre) ++ split_dot post)%list).
    simpl. rewrite IH. destruct (Ascii.eqb c "."); [reflexivity|].
    pose proof (split_dot_nonempty pre) as Hne.
    destruct (split_dot pre); [contradiction | reflexivity].
Qed.

Lemma split_dot_parts_no_dot (s : string) :
  Forall (fun part => has_dot part = false) (split_dot s).
Proof.
  induction s as [|c s IH]; simpl; [repeat constructor|].
  destruct (Ascii.eqb c ".") eqn:E; [constructor; [reflexivity | exact IH]|].
  destruct (split_dot s) as [|h t]; [repeat constructor; simpl; now rewrite E|].
  apply Forall_cons in IH as [Hh Ht].
  constructor; [simpl; now rewrite E, Hh | exact Ht].
Qed.

Lemma extension_of_lowered (name : string) :
  extension_of name = List.last (split_dot (toLowerCase name)) EmptyString.
Proof.
  unfold extension_of. rewrite split_dot_toLowerCase.
  symmetry. apply last_map_nonempty, split_dot_nonempty.
Qed.

(** X8: upper and lower case are not told apart: two names that differ
    in the case of their letters only fall into the same bucket. *)
Theorem X8_extension_ignores_case (name1 name2 : string) :
  toLowerCase name1 = toLowerCase name2 ->
  extension_of name1 = extension_of name2.
Proof. intros H. now rewrite !extension_of_lowered, H. Qed.

Lemma X8_witness : extension_of "Site.CSS" = extension_of "site.css".
Proof. apply (X8_extension_ignores_case "Site.CSS" "site.css"). reflexivity. Defined.

(** X9: the extension is what follows the last dot, in lower case; a
    name without a dot is its own extension, in lower case. *)
Theorem X9_extension_after_last_dot :
  (forall pre ext : string,
     has_dot ext = false ->
     extension_of (pre ++ "." ++ ext)%string = toLowerCase ext) /\
  (forall name : string,
     has_dot name = false -> extension_of name = toLowerCase name).
Proof.
  split.
  - intros pre ext Hext. unfold extension_of.
    rewrite split_dot_app, last_app_nonempty by apply split_dot_nonempty.
    now rewrite (split_dot_no_dot ext Hext).
  - intros name Hname. unfold extension_of.
    now rewrite (split_dot_no_dot name Hname).
Qed.

Lemma X9_witness :
  extension_of ("jquery.min" ++ "." ++ "JS")%string = toLowerCase "JS" /\
  extension_of "Makefile" = toLowerCase "Makefile".
Proof.
  split.
  - apply (proj1 X9_extension_after_last_dot "jquery.min" "JS"). reflexivity.
  - apply (proj2 X9_extension_after_last_dot "Makefile"). reflexivity.
Defined.

(** X10: the key of a bucket made for a file never contains a dot and is
    already in lower case. *)
Theorem X10_extension_shape (name : string) :
  has_dot (extension_of name) = false /\
  toLowerCase (extension_of name) = extension_of name.
Proof.
  unfold extension_of. split; [|apply toLowerCase_idempotent].
  rewrite has_dot_toLowerCase.
  pose proof (split_dot_parts_no_dot name) as Hall.
  pose proof (split_dot_nonempty name) as Hne.
  induction (split_dot name) as [|h t IH]; [contradiction|].
  apply Forall_cons in Hall as [Hh Ht].
  destruct t as [|h' t]; [exact Hh|].
  change (has_dot (List.last (h' :: t) EmptyString) = false).
  apply IH; [exact Ht | discriminate].
Qed.

(** ** The per-file ratio computation as a whole *)

(** X11: the ratio computation throws on exactly the entries that have
    no unminified variant and whose minified variant is missing or empty;
    on an entry that ingest made, that is an entry whose only variant is an
    empty minified file. *)
Theorem X11_determine_throws_iff (file : FileEntry) :
  determineCompressionSizeRatio file = Throw TypeError <->
  fe_unminified file = None /\ size_or_0 (fe_minified file) = 0.
Proof. apply determine_throws_iff. Qed.

(** X12: where it returns, the ratio computation keeps the name and both
    variants, defines [compressionSizeRatio], and is idempotent: applied to
    its own result it returns that result. *)
Theorem X12_determine_result (file file' : FileEntry) :
  determineCompressionSizeRatio file = Ok file' ->
  fe_name file' = fe_name file /\
  fe_unminified file' = fe_unminified file /\
  fe_minified file' = fe_minified file /\
  is_present (fe_compressionSizeRatio file') = true /\
  determineCompressionSizeRatio file' = Ok file'.
Proof.
  intros H. destruct (determine_keeps_variants _ _ H) as (Hn & Hu & Hm).
  repeat split; auto; [|now apply determine_idempotent in H].
  revert H. unfold determineCompressionSizeRatio.
  destruct (gzipSize_of _ file); simpl; [|discriminate].
  now intros [= <-].
Qed.

Lemma X12_witness :
  let file := set_variant Kminified (mkVariant 400 90)
                (set_variant Kunminified (mkVariant 500 100) (new_entry "app.css")) in
  let file' := set_compressionSizeRatio (jsdiv 90 500)
                 (set_minificationSizeRatio (jsdiv 400 500) file) in
  fe_name file' = fe_name file /\
  fe_unminified file' = fe_unminified file /\
  fe_minified file' = fe_minified file /\
  is_present (fe_compressionSizeRatio file') = true /\
  determineCompressionSizeRatio file' = Ok file'.
Proof.
  intros file file'. apply (X12_determine_result file file'). reflexivity.
Defined.

(** ** Aggregation as a whole *)




(** X14: aggregation keeps the keys of [files] and their order, and
    leaves under each key what the ratio computation makes of the entry
    that was there. *)
Theorem X14_postProcessFiles_entries (st st' : State) :
  postProcessFiles st = Ok st' ->
  Forall2 (fun kv kv' =>
             fst kv' = fst kv /\
             determineCompressionSizeRatio (snd kv) = Ok (snd kv'))
          (files st) (files st').
Proof.
  unfold postProcessFiles.
  destruct (forOwn_files (files st) (extensions st)) as [[fs' exts']|] eqn:E;
    simpl; [|discriminate].
  intros [= <-]. simpl. revert E.
  generalize (extensions st) as exts. generalize (files st) as fs.
  clear st. intros fs. revert fs' exts'.
  induction fs as [|[name data] fs IH]; intros fs' exts' exts; simpl.
  - intros [= <- <-]. constructor.
  - destruct (process_file name data exts) as [[data' exts1]|] eqn:E1;
      simpl; [|discriminate].
    destruct (forOwn_files fs exts1) as [[fs1 exts2]|] eqn:E2;
      simpl; [|discriminate].
    intros [= <- <-]. constructor.
    + split; [reflexivity|]. simpl. eapply process_file_Ok_inv; exact E1.
    + eapply IH; exact E2.
Qed.

Lemma X14_witness :
  let st := {| files := record_result defaultOptions "lib.js" (mkVariant 1000 300) [];
               extensions := initialExtensions |} in
  let st' := match postProcessFiles st with Ok s => s | Throw _ => st end in
  Forall2 (fun kv kv' =>
             fst kv' = fst kv /\
             determineCompressionSizeRatio (snd kv) = Ok (snd kv'))
          (files st) (files st').
Proof.
  intros st st'. apply (X14_postProcessFiles_entries st st').
  vm_compute. reflexivity.
Defined.






Lemma forOwn_files_field (f : Extension -> N) (q : FileEntry -> N)
  (fs fs' : list (string * FileEntry)) (A A' : gmap string Extension) :
  additive f ->
  (forall (d : FileEntry) (gz : N),
     best_gzip d = Ok gz ->
     f (accumulate (size_or_0 (fe_unminified d)) (size_or_0 (fe_minified d))
                   gz emptyExtension) = q d) ->
  (forall d d' : FileEntry,
     fe_unminified d' = fe_unminified d -> fe_minified d' = fe_minified d ->
     q d' = q d) ->
  is_Some (A !! "*") ->
  forOwn_files fs A = Ok (fs', A') ->
  forall k : string, field_at f A' k = field_at f A k + folded_total q k fs.
Proof.
  intros Hadd Hq Hvar. revert fs' A A'.
  induction fs as [|[name data] fs IH]; intros fs' A A' [w Hw]; simpl.
  - intros [= <- <-] k. lia.
  - destruct (process_file name data A) as [[data' A1]|] eqn:E1;
      simpl; [|discriminate].
    destruct (forOwn_files fs A1) as [[fs1 A2]|] eqn:E2;
      simpl; [|discriminate].
    intros [= <- <-] k.
    pose proof (process_file_Ok_inv _ _ _ _ _ E1) as Hdet.
    destruct (determine_keeps_variants _ _ Hdet) as (_ & Hu & Hm).
    destruct (process_file_eq name _ _ _ _ Hw Hdet) as (gz & Hgz & Heq).
    rewrite Heq in E1. injection E1 as <-.
    rewrite (IH _ _ _ (proj2 (step_keys A _ "*" _) (or_introl (ex_intro _ w Hw))) E2 k).
    rewrite (step_field f A _ k _ _ gz w Hadd Hw).
    unfold contribution. rewrite (Hq data' gz Hgz), (Hvar data data' Hu Hm). lia.
Qed.

Lemma total_count_additive : additive (fun e => sum_count (e_count e)).
Proof.
  split; [reflexivity|]. intros u m gz.
  exists (if truthy u || truthy m then 1 else 0). intros e.
  apply accumulate_counts.
Qed.

(** X17: what aggregation computes: after it, each size of a bucket is
    what it was before (zero for a new bucket) plus the sum, over the files
    of that extension, of the unminified size, of the minified size, of the
    first of the two that is not zero taken in the one and in the other
    order, and of the compressed size read; and the three counters together
    have grown by the number of those files that have a variant that is not
    empty.  For the wildcard key the sums range over all files. *)
Theorem X17_bucket_totals (st st' : State) (k : string) (b : Extension) :
  is_Some (extensions st !! "*") ->
  postProcessFiles st = Ok st' ->
  extensions st' !! k = Some b ->
  let prior := default emptyExtension (extensions st !! k) in
  s_unminified (e_size b)
    = s_unminified (e_size prior) + folded_total q_unminified k (files st) /\
  s_minified (e_size b)
    = s_minified (e_size prior) + folded_total q_minified k (files st) /\
  s_src (e_size b) = s_src (e_size prior) + folded_total q_src k (files st) /\
  s_dist (e_size b) = s_dist (e_size prior) + folded_total q_dist k (files st) /\
  s_gzip (e_size b) = s_gzip (e_size prior) + folded_total q_gzip k (files st) /\
  sum_count (e_count b)
    = sum_count (e_count prior) + folded_total counted k (files st).
Proof.
  intros Hw Hok Hb prior. revert Hok. unfold postProcessFiles.
  destruct (forOwn_files (files st) (extensions st)) as [[fs' exts']|] eqn:E;
    simpl; [|discriminate].
  intros [= <-]. simpl in Hb.
  assert (Hin : forall f, In f summed_fields -> additive f)
    by (intros f Hf; apply summed_field_additive, list_elem_of_In, Hf).
  unfold summed_fields in Hin. simpl in Hin.
  assert (Hfield : forall f q, additive f ->
            (forall d gz, best_gzip d = Ok gz ->
               f (accumulate (size_or_0 (fe_unminified d))
                             (size_or_0 (fe_minified d)) gz emptyExtension) = q d) ->
            (forall d d', fe_unminified d' = fe_unminified d ->
               fe_minified d' = fe_minified d -> q d' = q d) ->
            f b = f prior + folded_total q k (files st)).
  { intros f q Hadd Hq Hvar.
    pose proof (forOwn_files_field f q _ _ _ _ Hadd Hq Hvar Hw E k) as H.
    unfold field_at in H. now rewrite Hb in H. }
  repeat split.
  - apply (Hfield (fun e => s_unminified (e_size e)) q_unminified);
      [apply Hin; tauto | reflexivity |].
    intros d d' Hu _. unfold q_unminified. now rewrite Hu.
  - apply (Hfield (fun e => s_minified (e_size e)) q_minified);
      [apply Hin; tauto | reflexivity |].
    intros d d' _ Hm. unfold q_minified. now rewrite Hm.
  - apply (Hfield (fun e => s_src (e_size e)) q_src);
      [apply Hin; tauto | reflexivity |].
    intros d d' Hu Hm. unfold q_src. now rewrite Hu, Hm.
  - apply (Hfield (fun e => s_dist (e_size e)) q_dist);
      [apply Hin; tauto | reflexivity |].
    intros d d' Hu Hm. unfold q_dist. now rewrite Hu, Hm.
  - apply (Hfield (fun e => s_gzip (e_size e)) q_gzip); [apply Hin; tauto | |].
    + intros d gz Hgz. unfold q_gzip. now rewrite Hgz.
    + intros d d' Hu Hm. unfold q_gzip, best_gzip, gzipSize_of, get_variant.
      now rewrite Hu, Hm.
  - apply (Hfield (fun e => sum_count (e_count e)) counted);
      [apply total_count_additive | |].
    + intros d gz _. unfold counted, sum_count, accumulate, truthy. simpl.
      destruct (N.eqb (size_or_0 (fe_unminified d)) 0),
               (N.eqb (size_or_0 (fe_minified d)) 0); reflexivity.
    + intros d d' Hu Hm. unfold counted. now rewrite Hu, Hm.
Qed.

Lemma X17_witness :
  let st := {| files := record_result defaultOptions "app.min.css" (mkVariant 400 90)
                          (record_result defaultOptions "app.css" (mkVariant 500 100) []);
               extensions := initialExtensions |} in
  let st' := match postProcessFiles st with Ok s => s | Throw _ => st end in
  let b := default emptyExtension (extensions st' !! "css") in
  s_unminified (e_size b) = 0 + folded_total q_unminified "css" (files st) /\
  s_minified (e_size b) = 0 + folded_total q_minified "css" (files st) /\
  s_src (e_size b) = 0 + folded_total q_src "css" (files st) /\
  s_dist (e_size b) = 0 + folded_total q_dist "css" (files st) /\
  s_gzip (e_size b) = 0 + folded_total q_gzip "css" (files st) /\
  sum_count (e_count b) = 0 + folded_total counted "css" (files st).
Proof.
  intros st st' b. apply (X17_bucket_totals st st' "css" b).
  - eexists. reflexivity.
  - vm_compute. reflexivity.
  - vm_compute. reflexivity.
Defined.

(** ** The extension-level ratio computation as a whole *)

(** X18: computing the extension-level ratios again changes nothing. *)
Theorem X18_postProcessExtensions_idempotent (v : lodash) (st : State) :
  postProcessExtensions v (postProcessExtensions v st) = postProcessExtensions v st.
Proof.
  unfold postProcessExtensions. simpl. f_equal.
  rewrite <- map_fmap_compose. apply map_fmap_ext. reflexivity.
Qed.

(** X19: after the ratio computation every bucket has a
    [minificationRatio], and its [count] depends on the lodash release
    through [_.sum(data.count)].  With release 3 it is [NaN] if none of the
    bucket's files was counted and a fraction between zero and one
    otherwise, never infinite.  With release 4 the divisor is zero: the
    ratio is [NaN] if no file of the bucket was counted as minified or as a
    pair, and [Infinity] otherwise. *)
Theorem X19_count_ratio_is_fraction (v : lodash) (st : State) (k : string)
  (b : Extension) :
  extensions (postProcessExtensions v st) !! k = Some b ->
  exists r : MinificationRatio,
    e_minificationRatio b = Some r /\
    match v with
    | Lodash3 =>
        (sum_count (e_count b) = 0 -> mr_count r = NaN) /\
        (sum_count (e_count b) <> 0 -> is_fraction (mr_count r))
    | Lodash4 =>
        (c_minified (e_count b) + c_both (e_count b) = 0 -> mr_count r = NaN) /\
        (c_minified (e_count b) + c_both (e_count b) <> 0 ->
         mr_count r = Infinity)
    end.
Proof.
  unfold postProcessExtensions. simpl. rewrite lookup_fmap.
  destruct (extensions st !! k) as [a|]; simpl; [|discriminate].
  intros [= <-]. eexists. split; [reflexivity|]. simpl.
  destruct (e_count a) as [cm cu cb]. destruct v; simpl; unfold sum_count; simpl.
  - split.
    + intros H0. assert (cm = 0 /\ cb = 0) as [-> ->] by lia.
      now replace (0 + cu + 0) with 0 by lia.
    + intros Hne. unfold jsdiv.
      destruct (cm + cu + cb) as [|p] eqn:E; [contradiction|].
      simpl. rewrite Qred_correct. unfold Qle. simpl. lia.
  - split.
    + intros ->. reflexivity.
    + intros Hne. unfold jsdiv. destruct (N.eqb_spec (cm + cb) 0);
        [contradiction | reflexivity].
Qed.

Lemma X19_witness :
  let fs := record_result defaultOptions "lib.css" (mkVariant 300 80)
              (record_result defaultOptions "app.min.css" (mkVariant 400 90)
                 (record_result defaultOptions "app.css" (mkVariant 500 100) [])) in
  let st := match postProcessFiles {| files := fs; extensions := initialExtensions |}
            with Ok s => s | Throw _ => initialState end in
  (exists r : MinificationRatio,
     e_minificationRatio
       (extension_ratios Lodash3 (default emptyExtension (extensions st !! "css")))
       = Some r /\
     sum_count (e_count (default emptyExtension (extensions st !! "css"))) = 2 /\
     is_fraction (mr_count r)) /\
  (exists r : MinificationRatio,
     e_minificationRatio
       (extension_ratios Lodash4 (default emptyExtension (extensions st !! "css")))
       = Some r /\
     mr_count r = Infinity).
Proof.
  intros fs st. split.
  - destruct (X19_count_ratio_is_fraction Lodash3 st "css"
                (extension_ratios Lodash3
                   (default emptyExtension (extensions st !! "css"))))
      as (r & Hr & _ & Hfrac); [vm_compute; reflexivity|].
    exists r. split; [exact Hr|]. split; [vm_compute; reflexivity|].
    apply Hfrac. vm_compute. discriminate.
  - destruct (X19_count_ratio_is_fraction Lodash4 st "css"
                (extension_ratios Lodash4
                   (default emptyExtension (extensions st !! "css"))))
      as (r & Hr & _ & Hinf); [vm_compute; reflexivity|].
    exists r. split; [exact Hr|].
    apply Hinf. vm_compute. discriminate.
Defined.

(** ** The report *)

Lemma insert_sorted_perm (s : string) (l : list string) :
  insert_sorted s l ≡ₚ s :: l.
Proof.
  induction l as [|h t IH]; simpl; [reflexivity|].
  destruct (String.leb s h); [reflexivity|].
  rewrite IH. apply Permutation_swap.
Qed.

Lemma sortBy_perm (l : list string) : sortBy l ≡ₚ l.
Proof.
  unfold sortBy. induction l as [|a l IH]; simpl; [reflexivity|].
  now rewrite insert_sorted_perm, IH.
Qed.

Lemma insert_sorted_sorted (s : string) (l : list string) :
  Sorted (fun a b => String.leb a b = true) l ->
  Sorted (fun a b => String.leb a b = true) (insert_sorted s l).
Proof.
  induction l as [|h t IH]; simpl; intros Hs.
  - repeat constructor.
  - destruct (String.leb s h) eqn:E.
    + constructor; [exact Hs | constructor; exact E].
    + apply Sorted_inv in Hs as [Ht Hh].
      constructor; [now apply IH|].
      assert (Hhs : String.leb h s = true)
        by (destruct (String.leb_total s h); congruence).
      destruct t as [|h' t]; simpl; [constructor; exact Hhs|].
      destruct (String.leb s h'); constructor; [exact Hhs|].
      now apply HdRel_inv in Hh.
Qed.

Lemma sortBy_sorted (l : list string) :
  Sorted (fun a b => String.leb a b = true) (sortBy l).
Proof.
  unfold sortBy. induction l as [|a l IH]; simpl; [constructor|].
  now apply insert_sorted_sorted.
Qed.

Lemma rows_length {A B : Type} (f : A -> outcome B) (l : list A) (r : list B) :
  rows f l = Ok r -> length r = length l.
Proof.
  revert r. induction l as [|a l IH]; intros r; simpl.
  - now intros [= <-].
  - destruct (f a) as [b|]; simpl; [|discriminate].
    destruct (rows f l) as [bs|]; simpl; [|discriminate].
    intros [= <-]. simpl. f_equal. now apply IH.
Qed.


Lemma rows_map {A B C : Type} (f : A -> outcome B) (g : B -> C) (h : A -> C)
  (l : list A) (r : list B) :
  (forall a b, f a = Ok b -> g b = h a) ->
  rows f l = Ok r -> List.map g r = List.map h l.
Proof.
  intros Hgh. revert r. induction l as [|a l IH]; intros r; simpl.
  - now intros [= <-].
  - destruct (f a) as [b|] eqn:E; simpl; [|discriminate].
    destruct (rows f l) as [bs|]; simpl; [|discriminate].
    intros [= <-]. simpl. f_equal; [now apply Hgh | now apply IH].
Qed.

(** How [report] runs when there are files. *)
Lemma report_with_files (v : lodash) (st st' : State) (out : list line) :
  files st <> [] ->
  report v st = Ok (st', out) ->
  exists (st1 : State) (fileRows extensionRows : list (list cell))
         (overallRow : list cell),
    postProcessFiles st = Ok st1 /\
    st' = postProcessExtensions v st1 /\
    rows (fileRow (files st')) (sortBy (fst <$> files st)) = Ok fileRows /\
    rows (extensionRow (extensions st'))
         (sortBy (List.filter (fun k => negb (String.eqb k "*"))
                              (fst <$> map_to_list (extensions st'))))
      = Ok extensionRows /\
    extensionRow (extensions st') "*" = Ok overallRow /\
    out =
      ([LFileCount (length (files st)); LBlank] ++
       (let needs := List.filter (fun kv => negb (is_present (fe_minified (snd kv))))
                                 (files st') in
        if Nat.eqb (length needs) 0 then [LAllMinified]
        else LMissing (length needs) (length (files st))
             :: ((fun kv => LMissingFile (fe_name (snd kv))) <$> needs)) ++
       [LBlank;
        LHeading "File Statistics"; LTable fileColumns fileRows;
        LHeading "Extension Statistics:"; LTable extensionColumns extensionRows;
        LHeading "Overall Statistics:"; LTable extensionColumns [overallRow];
        LBlank])%list.
Proof.
  intros Hne. unfold report.
  destruct (Nat.eqb (length (fst <$> files st)) 0) eqn:E0.
  { apply Nat.eqb_eq in E0. rewrite length_fmap in E0.
    destruct (files st); [contradiction | discriminate]. }
  destruct (postProcessFiles st) as [st1|]; simpl; [|discriminate].
  destruct (rows (fileRow _) _) as [fileRows|] eqn:E1; simpl; [|discriminate].
  destruct (rows (extensionRow _) _) as [extensionRows|] eqn:E2;
    simpl; [|discriminate].
  destruct (extensionRow _ "*") as [overallRow|] eqn:E3; simpl; [|discriminate].
  intros [= <- <-]. exists st1, fileRows, extensionRows, overallRow.
  rewrite length_fmap. repeat split; assumption.
Qed.




Lemma row_name_fileRow (fs : list (string * FileEntry)) (filename : string)
  (row : list cell) :
  fileRow fs filename = Ok row -> row_name row = Some filename.
Proof.
  unfold fileRow. destruct (files_get filename fs); [|discriminate].
  now intros [= <-].
Qed.

Lemma row_name_extensionRow (exts : gmap string Extension) (k : string)
  (row : list cell) :
  extensionRow exts k = Ok row -> row_name row = Some k.
Proof.
  unfold extensionRow. destruct (exts !! k) as [a|]; [|discriminate].
  destruct (e_minificationRatio a); [|discriminate].
  now intros [= <-].
Qed.

Lemma missing_lines_no_table (needs : list (string * FileEntry)) (n : nat) :
  List.filter is_table
    (if Nat.eqb (length needs) 0 then [LAllMinified]
     else LMissing (length needs) n
          :: ((fun kv => LMissingFile (fe_name (snd kv))) <$> needs)) = [].
Proof.
  destruct (Nat.eqb (length needs) 0); [reflexivity|]. simpl.
  induction needs as [|kv l IH]; [reflexivity | exact IH].
Qed.

(** X20: with files ingested, a report that returns has run the
    aggregation and the ratio computation once, and has logged exactly three
    tables: one row per file, then the rows of the extensions, then a single
    row of totals. *)
Theorem X20_report_tables (v : lodash) (st st' : State) (out : list line) :
  files st <> [] ->
  report v st = Ok (st', out) ->
  aggregate v st = Ok st' /\
  exists (fileRows extensionRows : list (list cell)) (overallRow : list cell),
    List.filter is_table out =
      [LTable fileColumns fileRows;
       LTable extensionColumns extensionRows;
       LTable extensionColumns [overallRow]] /\
    length fileRows = length (files st) /\
    row_name overallRow = Some "*".
Proof.
  intros Hne Hrep.
  destruct (report_with_files _ _ _ _ Hne Hrep)
    as (st1 & fileRows & extensionRows & overallRow
        & Hpp & -> & Hf & He & Ho & ->).
  split; [unfold aggregate; now rewrite Hpp|].
  exists fileRows, extensionRows, overallRow. split; [|split].
  - rewrite !List.filter_app. simpl.
    match goal with
    | |- (List.filter is_table ?m ++ _)%list = _ =>
        assert (Hm : List.filter is_table m = [])
    end.
    { apply missing_lines_no_table. }
    now rewrite Hm.
  - apply rows_length in Hf. rewrite Hf.
    rewrite (Permutation_length (sortBy_perm _)). apply length_fmap.
  - eapply row_name_extensionRow; exact Ho.
Qed.

Lemma X20_witness :
  let st := {| files := record_result defaultOptions "lib.js" (mkVariant 1000 300) [];
               extensions := initialExtensions |} in
  let r := match report Lodash3 st with Ok r => r | Throw _ => (st, []) end in
  aggregate Lodash3 st = Ok (fst r) /\
  exists (fileRows extensionRows : list (list cell)) (overallRow : list cell),
    List.filter is_table (snd r) =
      [LTable fileColumns fileRows;
       LTable extensionColumns extensionRows;
       LTable extensionColumns [overallRow]] /\
    length fileRows = length (files st) /\
    row_name overallRow = Some "*".
Proof.
  intros st r. apply (X20_report_tables Lodash3 st (fst r) (snd r)).
  - discriminate.
  - vm_compute. reflexivity.
Defined.



Lemma report_with_files_tables (v : lodash) (st st' : State) (out : list line) :
  files st <> [] ->
  report v st = Ok (st', out) ->
  exists (fileRows extensionRows : list (list cell)) (overallRow : list cell),
    rows (fileRow (files st')) (sortBy (fst <$> files st)) = Ok fileRows /\
    rows (extensionRow (extensions st'))
         (sortBy (List.filter (fun k => negb (String.eqb k "*"))
                              (fst <$> map_to_list (extensions st'))))
      = Ok extensionRows /\
    List.filter is_table out =
      [LTable fileColumns fileRows;
       LTable extensionColumns extensionRows;
       LTable extensionColumns [overallRow]].
Proof.
  intros Hne Hrep.
  destruct (report_with_files _ _ _ _ Hne Hrep)
    as (st1 & fileRows & extensionRows & overallRow
        & Hpp & -> & Hf & He & Ho & ->).
  exists fileRows, extensionRows, overallRow.
  split; [exact Hf|]. split; [exact He|].
  rewrite !List.filter_app. simpl.
  now rewrite missing_lines_no_table.
Qed.

(** X22: the table of files lists every key of [files] once, in
    ascending order of the names. *)
Theorem X22_file_table_sorted (v : lodash) (st st' : State) (out : list line) :
  files st <> [] ->
  report v st = Ok (st', out) ->
  exists (fileRows : list (list cell)) (t2 t3 : line) (names : list string),
    List.filter is_table out = [LTable fileColumns fileRows; t2; t3] /\
    List.map row_name fileRows = List.map Some names /\
    names ≡ₚ fst <$> files st /\
    Sorted (fun a b => String.leb a b = true) names.
Proof.
  intros Hne Hrep.
  destruct (report_with_files_tables _ _ _ _ Hne Hrep)
    as (fileRows & extensionRows & overallRow & Hf & _ & Htab).
  exists fileRows, (LTable extensionColumns extensionRows),
         (LTable extensionColumns [overallRow]), (sortBy (fst <$> files st)).
  split; [exact Htab|]. split; [|split].
  - eapply rows_map; [|exact Hf]. intros a b. apply row_name_fileRow.
  - apply sortBy_perm.
  - apply sortBy_sorted.
Qed.

Lemma X22_witness :
  let st := {| files := record_result defaultOptions "app.css" (mkVariant 500 100)
                          (record_result defaultOptions "lib.js" (mkVariant 1000 300) []);
               extensions := initialExtensions |} in
  let r := match report Lodash3 st with Ok r => r | Throw _ => (st, []) end in
  exists (fileRows : list (list cell)) (t2 t3 : line) (names : list string),
    List.filter is_table (snd r) = [LTable fileColumns fileRows; t2; t3] /\
    List.map row_name fileRows = List.map Some names /\
    names ≡ₚ fst <$> files st /\
    Sorted (fun a b => String.leb a b = true) names.
Proof.
  intros st r. apply (X22_file_table_sorted Lodash3 st (fst r) (snd r)).
  - discriminate.
  - vm_compute. reflexivity.
Defined.

(** X23: the table of extensions lists every bucket but the wildcard
    once, in ascending order of the keys, and never the wildcard. *)
Theorem X23_extension_table (v : lodash) (st st' : State) (out : list line) :
  files st <> [] ->
  report v st = Ok (st', out) ->
  exists (extensionRows : list (list cell)) (t1 t3 : line) (names : list string),
    List.filter is_table out = [t1; LTable extensionColumns extensionRows; t3] /\
    List.map row_name extensionRows = List.map Some names /\
    Sorted (fun a b => String.leb a b = true) names /\
    NoDup names /\
    forall k : string,
      In k names <-> k <> "*" /\ is_Some (extensions st' !! k).
Proof.
  intros Hne Hrep.
  destruct (report_with_files_tables _ _ _ _ Hne Hrep)
    as (fileRows & extensionRows & overallRow & _ & He & Htab).
  set (keys := List.filter (fun k => negb (String.eqb k "*"))
                           (fst <$> map_to_list (extensions st'))) in *.
  exists extensionRows, (LTable fileColumns fileRows),
         (LTable extensionColumns [overallRow]), (sortBy keys).
  split; [exact Htab|]. split; [|split; [|split]].
  - eapply rows_map; [|exact He]. intros a b. apply row_name_extensionRow.
  - apply sortBy_sorted.
  - rewrite sortBy_perm. apply NoDup_ListNoDup.
    unfold keys. apply List.NoDup_filter, NoDup_ListNoDup, NoDup_fst_map_to_list.
  - intros k. split.
    + intros Hin. apply (Permutation_in _ (sortBy_perm _)) in Hin.
      apply filter_In in Hin as [Hin Hk].
      split; [intros ->; discriminate|].
      apply list_elem_of_In, list_elem_of_fmap in Hin as ([k' x] & -> & Hkx).
      apply elem_of_map_to_list in Hkx. simpl. eauto.
    + intros [Hk [x Hx]].
      apply (Permutation_in _ (Permutation_sym (sortBy_perm _))).
      apply filter_In. split.
      * apply list_elem_of_In, list_elem_of_fmap. exists (k, x).
        split; [reflexivity|]. now apply elem_of_map_to_list.
      * destruct (String.eqb_spec k "*"); [contradiction | reflexivity].
Qed.

Lemma X23_witness :
  let st := {| files := record_result defaultOptions "app.css" (mkVariant 500 100)
                          (record_result defaultOptions "lib.js" (mkVariant 1000 300) []);
               extensions := initialExtensions |} in
  let r := match report Lodash3 st with Ok r => r | Throw _ => (st, []) end in
  exists (extensionRows : list (list cell)) (t1 t3 : line) (names : list string),
    List.filter is_table (snd r) = [t1; LTable extensionColumns extensionRows; t3] /\
    List.map row_name extensionRows = List.map Some names /\
    Sorted (fun a b => String.leb a b = true) names /\
    NoDup names /\
    forall k : string,
      In k names <-> k <> "*" /\ is_Some (extensions (fst r) !! k).
Proof.
  intros st r. apply (X23_extension_table Lodash3 st (fst r) (snd r)).
  - discriminate.
  - vm_compute. reflexivity.
Defined.

Lemma forOwn_files_missing_names (fs fs' : list (string * FileEntry))
  (A A' : gmap string Extension) :
  forOwn_files fs A = Ok (fs', A') ->
  List.map (fun kv => fe_name (snd kv))
    (List.filter (fun kv => negb (is_present (fe_minified (snd kv)))) fs')
  = List.map (fun kv => fe_name (snd kv))
      (List.filter (fun kv => negb (is_present (fe_minified (snd kv)))) fs).
Proof.
  revert fs' A A'. induction fs as [|[name data] fs IH]; intros fs' A A'; simpl.
  - now intros [= <- <-].
  - destruct (process_file name data A) as [[data' A1]|] eqn:E1;
      simpl; [|discriminate].
    destruct (forOwn_files fs A1) as [[fs1 A2]|] eqn:E2;
      simpl; [|discriminate].
    intros [= <- <-]. simpl.
    apply process_file_Ok_inv, determine_keeps_variants in E1 as (Hn & _ & Hm).
    rewrite Hm. specialize (IH _ _ _ E2).
    destruct (negb (is_present (fe_minified data))); simpl; [|exact IH].
    now rewrite Hn, IH.
Qed.

Lemma filter_nil_Forall {A : Type} (p : A -> bool) (l : list A) :
  List.filter p l = [] <-> Forall (fun x => p x = false) l.
Proof.
  induction l as [|a l IH]; simpl; [split; [constructor | reflexivity]|].
  destruct (p a) eqn:E.
  - split; [discriminate|]. intros H. apply Forall_cons in H as [H _]. congruence.
  - rewrite IH. split; [now constructor | intros H; now apply Forall_cons in H as [_ H]].
Qed.

(** X24: the summary of missing minification says that all files are
    minified exactly when every entry has a minified variant, and otherwise
    names exactly the entries that have none. *)
Theorem X24_missing_minification (v : lodash) (st st' : State) (out : list line) :
  files st <> [] ->
  report v st = Ok (st', out) ->
  (In LAllMinified out <->
   Forall (fun kv => is_present (fe_minified (snd kv)) = true) (files st)) /\
  (forall name : string,
     In (LMissingFile name) out <->
     exists kv, In kv (files st) /\ fe_name (snd kv) = name /\
                fe_minified (snd kv) = None).
Proof.
  intros Hne Hrep.
  destruct (report_with_files _ _ _ _ Hne Hrep)
    as (st1 & fileRows & extensionRows & overallRow
        & Hpp & -> & _ & _ & _ & ->).
  assert (Hnames :
    List.map (fun kv => fe_name (snd kv))
      (List.filter (fun kv => negb (is_present (fe_minified (snd kv)))) (files st1))
    = List.map (fun kv => fe_name (snd kv))
        (List.filter (fun kv => negb (is_present (fe_minified (snd kv))))
                     (files st))).
  { revert Hpp. unfold postProcessFiles.
    destruct (forOwn_files (files st) (extensions st)) as [[fs' exts']|] eqn:E;
      simpl; [|discriminate].
    intros [= <-]. simpl. eapply forOwn_files_missing_names; exact E. }
  change (files (postProcessExtensions v st1)) with (files st1).
  set (noMin := fun kv : string * FileEntry =>
                  negb (is_present (fe_minified (snd kv)))) in *.
  set (needs' := List.filter noMin (files st1)) in *.
  set (needs := List.filter noMin (files st)) in *.
  assert (Hlen : length needs' = length needs).
  { apply (f_equal (@length string)) in Hnames. now rewrite !length_map in Hnames. }
  assert (Hnil : needs = [] <->
                 Forall (fun kv => is_present (fe_minified (snd kv)) = true)
                        (files st)).
  { unfold needs. rewrite filter_nil_Forall. unfold noMin.
    split; intros H; eapply Forall_impl; try exact H; simpl;
      intros kv; destruct (is_present (fe_minified (snd kv))); simpl; congruence. }
  assert (Hin : forall name,
            In name (List.map (fun kv => fe_name (snd kv)) needs) <->
            exists kv, In kv (files st) /\ fe_name (snd kv) = name /\
                       fe_minified (snd kv) = None).
  { intros name. rewrite in_map_iff. unfold needs, noMin. split.
    - intros (kv & Hn & Hkv). apply filter_In in Hkv as [Hkv Hm].
      exists kv. repeat split; auto. now destruct (fe_minified (snd kv)).
    - intros (kv & Hkv & Hn & Hm). exists kv. split; [exact Hn|].
      apply filter_In. split; [exact Hkv|]. now rewrite Hm. }
  split.
  - rewrite <- Hnil. rewrite !in_app_iff. simpl.
    destruct (Nat.eqb (length needs') 0) eqn:E0.
    + apply Nat.eqb_eq in E0. rewrite Hlen in E0.
      split; [intros _; now destruct needs | intros _; right; left; now left].
    + apply Nat.eqb_neq in E0. rewrite Hlen in E0. split.
      * intros [[H|[H|[]]]|[[H|H]|H]]; try discriminate.
        -- apply list_elem_of_In, list_elem_of_fmap in H as (kv & Hkv & _).
           discriminate.
        -- repeat (destruct H as [H|H]; try discriminate). destruct H.
      * intros ->. contradiction.
  - intros name. rewrite <- Hin, <- Hnames. rewrite !in_app_iff. simpl.
    split.
    + intros [[H|[H|[]]]|[H|H]]; try discriminate.
      * destruct (Nat.eqb (length needs') 0).
        -- destruct H as [H|[]]. discriminate.
        -- destruct H as [H|H]; [discriminate|].
           apply list_elem_of_In, list_elem_of_fmap in H as (kv & [= ->] & Hkv).
           apply in_map_iff. exists kv. split; [reflexivity|].
           now apply list_elem_of_In.
      * repeat (destruct H as [H|H]; try discriminate). destruct H.
    + intros H. apply in_map_iff in H as (kv & <- & Hkv).
      right. left. destruct (Nat.eqb (length needs') 0) eqn:E0.
      * apply Nat.eqb_eq in E0. destruct needs'; [destruct Hkv | discriminate].
      * right. apply list_elem_of_In, list_elem_of_fmap. exists kv.
        split; [reflexivity | now apply list_elem_of_In].
Qed.

Lemma X24_witness :
  let st := {| files := record_result defaultOptions "app.min.css" (mkVariant 400 90)
                          (record_result defaultOptions "lib.js" (mkVariant 1000 300) []);
               extensions := initialExtensions |} in
  let r := match report Lodash3 st with Ok r => r | Throw _ => (st, []) end in
  (In LAllMinified (snd r) <->
   Forall (fun kv => is_present (fe_minified (snd kv)) = true) (files st)) /\
  (forall name : string,
     In (LMissingFile name) (snd r) <->
     exists kv, In kv (files st) /\ fe_name (snd kv) = name /\
                fe_minified (snd kv) = None).
Proof.
  intros st r. apply (X24_missing_minification Lodash3 st (fst r) (snd r)).
  - discriminate.
  - vm_compute. reflexivity.
Defined.
